(** * The OpenCSG sandbox: input recorder, event-log format, settings and job

    A shallow embedding of [sandboxes/opencsg/main.cpp]: the
    [RecorderMouseInput] decorator (record, play, save, load), the handlers
    of the convexity spin control and of the Record toggle, and
    [SLAJob::process] / [SLAJob::finalize].

    Streams are modelled at the level of characters, the recorder by
    explicit state passing, the calls that reach the wrapped [MouseInput]
    base class as a trace. *)

From Stdlib Require Import ZArith List String Ascii Bool Lia.
From Stdlib Require Import Decimal DecimalString DecimalPos DecimalN DecimalZ.
Import ListNotations.

Local Open Scope string_scope.
Local Open Scope list_scope.
Local Open Scope Z_scope.

(** ** Character streams *)

Module Stream.

(** *** Output: [std::ostream] as the text written so far *)

Definition ostream := string.

Definition endl_char : ascii := "010"%char.

(** [stream << "..."] *)
Definition put_str (t : string) (os : ostream) : ostream :=
  (os ++ t)%string.

(** The decimal text [operator<<] produces for an integer with the
    default flags: a minus sign for negative values, no padding. *)
Definition show_int (z : Z) : string :=
  NilEmpty.string_of_int (Z.to_int z).

(** [stream << n] for [int], [long] and unscoped enumerations (which are
    promoted to [int]). *)
Definition put_int (z : Z) (os : ostream) : ostream :=
  put_str (show_int z) os.

(** [stream << std::endl] *)
Definition endl (os : ostream) : ostream :=
  put_str (String endl_char EmptyString) os.

(** *** Input: [std::istream] as the unread characters and the state bits *)

Record istream := mk_istream {
  buf     : string;
  eofbit  : bool;
  failbit : bool
}.

Definition istream_of (text : string) : istream :=
  {| buf := text; eofbit := false; failbit := false |}.

(** [stream.good()] *)
Definition good (s : istream) : bool := negb (eofbit s) && negb (failbit s).

(** [std::isspace] in the "C" locale *)
Definition isspace (c : ascii) : bool :=
  let n := N_of_ascii c in
  ((n =? 32) || ((9 <=? n) && (n <=? 13)))%N.

Definition isdigit (c : ascii) : bool :=
  let n := N_of_ascii c in ((48 <=? n) && (n <=? 57))%N.

Definition digit_val (c : ascii) : Z := Z.of_N (N_of_ascii c) - 48.

Fixpoint skipws (t : string) : string :=
  match t with
  | String c r => if isspace c then skipws r else t
  | EmptyString => EmptyString
  end.

(** The sentry of a formatted input function: fails (setting [failbit])
    on a stream that is not good; otherwise skips white space, and fails
    with [eofbit] and [failbit] when that reaches the end. *)
Definition sentry (s : istream) : bool * istream :=
  if good s then
    match skipws (buf s) with
    | EmptyString =>
        (false, {| buf := EmptyString; eofbit := true; failbit := true |})
    | t => (true, {| buf := t; eofbit := eofbit s; failbit := failbit s |})
    end
  else (false, {| buf := buf s; eofbit := eofbit s; failbit := true |}).

(** Accumulate a run of decimal digits, most significant first. *)
Fixpoint get_digits (t : string) (acc : Z) : Z * string :=
  match t with
  | String c r =>
      if isdigit c then get_digits r (acc * 10 + digit_val c) else (acc, t)
  | EmptyString => (acc, EmptyString)
  end.

Definition starts_with_digit (t : string) : bool :=
  match t with
  | String c _ => isdigit c
  | EmptyString => false
  end.

Fixpoint all_space (t : string) : bool :=
  match t with
  | String c r => isspace c && all_space r
  | EmptyString => true
  end.

(** The optional sign in front of a number: whether it is a minus, and
    the text after it. *)
Definition read_sign (t : string) : bool * string :=
  match t with
  | String c r =>
      if (c =? "-")%char then (true, r)
      else if (c =? "+")%char then (false, r)
      else (false, t)
  | EmptyString => (false, t)
  end.

(** [std::num_get] for a signed integer type with range [lo..hi], base
    ten: an optional sign, then digits.  Without a digit the value is 0
    and the conversion fails; out of range the value is clamped and the
    conversion fails.  The result is the value, the failure flag and the
    unread text. *)
Definition num_get (lo hi : Z) (t : string) : Z * bool * string :=
  let (neg, t1) := read_sign t in
  if starts_with_digit t1 then
    let (n, rest) := get_digits t1 0 in
    let v := if neg then - n else n in
    if v <? lo then (lo, true, rest)
    else if hi <? v then (hi, true, rest)
    else (v, false, rest)
  else (0, true, t1).

Definition at_end (t : string) : bool :=
  match t with EmptyString => true | _ => false end.

(** [stream >> x] for an integer variable whose current value is [old]:
    when the sentry fails the variable is left as it was. *)
Definition extract (lo hi : Z) (s : istream) (old : Z) : istream * Z :=
  let (ok, s1) := sentry s in
  if ok then
    let '(v, fail, rest) := num_get lo hi (buf s1) in
    ({| buf := rest;
        eofbit := eofbit s1 || at_end rest;
        failbit := failbit s1 || fail |}, v)
  else (s1, old).

Definition INT_MIN : Z := - 2 ^ 31.
Definition INT_MAX : Z := 2 ^ 31 - 1.
(** [long] of the LP64 data model *)
Definition LONG_MIN : Z := - 2 ^ 63.
Definition LONG_MAX : Z := 2 ^ 63 - 1.

Definition extract_int := extract INT_MIN INT_MAX.
Definition extract_long := extract LONG_MIN LONG_MAX.

End Stream.

Import Stream.


(** ** The mouse-input interface *)

Inductive WheelAxis := waVertical | waHorizontal.

(** One invocation of a method of the [MouseInput] interface. *)
Inductive Call :=
| call_left_click_down
| call_left_click_up
| call_right_click_down
| call_right_click_up
| call_double_click
| call_scroll (v d : Z) (wa : WheelAxis)
| call_move_to (x y : Z).

(** Modelled from the spec: the [MouseInput] base class is declared in
    GLScene.hpp, which is not among the sources.  Per the spec it hands
    every call to the same-named method of each listener, in registration
    order.  It is represented by the calls it has been given, oldest first:
    what the listeners (the Controller) get to see. *)
Record MouseInput := mk_MouseInput { dispatched : list Call }.

Definition MouseInput_call (c : Call) (ms : MouseInput) : MouseInput :=
  {| dispatched := dispatched ms ++ [c] |}.

(** ** Events *)

(** [enum EEvents { LCLK_U, RCLK_U, LCLK_D, RCLK_D, DDCLK, SCRL, MV }] *)
Inductive EEvents := LCLK_U | RCLK_U | LCLK_D | RCLK_D | DDCLK | SCRL | MV.

(** The value of an enumerator: its position in the declaration. *)
Definition EEvents_value (t : EEvents) : Z :=
  match t with
  | LCLK_U => 0 | RCLK_U => 1 | LCLK_D => 2 | RCLK_D => 3
  | DDCLK => 4 | SCRL => 5 | MV => 6
  end.

(** The enumerator a value names, if any. *)
Definition EEvents_named (n : Z) : option EEvents :=
  match n with
  | 0 => Some LCLK_U | 1 => Some RCLK_U | 2 => Some LCLK_D
  | 3 => Some RCLK_D | 4 => Some DDCLK | 5 => Some SCRL | 6 => Some MV
  | _ => None
  end.

(** [struct Event { EEvents type; long a, b; }].  [load] stores
    [EEvents(type)] for whatever [int] it has in hand, so the field ranges
    over the integers and not only over the seven enumerators. *)
Record Event := mk_Event { type : Z; a : Z; b : Z }.

(** [Event(EEvents t, long x = 0, long y = 0)] *)
Definition Event_ctor (t : EEvents) (x y : Z) : Event :=
  {| type := EEvents_value t; a := x; b := y |}.

(** ** RecorderMouseInput *)

Record RecorderMouseInput := mk_Recorder {
  base        : MouseInput;      (* the MouseInput subobject *)
  m_events    : list Event;
  m_recording : bool;
  m_playing   : bool
}.

(** A freshly constructed recorder: [m_recording = false, m_playing = false]. *)
Definition Recorder_init : RecorderMouseInput :=
  {| base := {| dispatched := [] |};
     m_events := []; m_recording := false; m_playing := false |}.

Definition set_base (ms : MouseInput) (r : RecorderMouseInput) :=
  {| base := ms; m_events := m_events r;
     m_recording := m_recording r; m_playing := m_playing r |}.

Definition set_events (es : list Event) (r : RecorderMouseInput) :=
  {| base := base r; m_events := es;
     m_recording := m_recording r; m_playing := m_playing r |}.

Definition set_recording (v : bool) (r : RecorderMouseInput) :=
  {| base := base r; m_events := m_events r;
     m_recording := v; m_playing := m_playing r |}.

Definition set_playing (v : bool) (r : RecorderMouseInput) :=
  {| base := base r; m_events := m_events r;
     m_recording := m_recording r; m_playing := v |}.

(** [m_events.emplace_back(...)] *)
Definition emplace_back (e : Event) (r : RecorderMouseInput) :=
  set_events (m_events r ++ [e]) r.

(** A qualified call [MouseInput::f(...)] of the base-class method. *)
Definition MouseInput_ (c : Call) (r : RecorderMouseInput) :=
  set_base (MouseInput_call c (base r)) r.

(** *** The seven overridden report operations *)

(** What a qualified call [MouseInput::f(...)] does to the object: the
    base-class method runs the listeners, which are free to look at the
    recorder as it stands when they are called. *)
Definition BaseCall := Call -> RecorderMouseInput -> RecorderMouseInput.

(** Each override is given with the base-class method it calls as the
    parameter [base_call], and then with the base class of this
    development, [MouseInput_], in its place. *)

Definition left_click_down_with (base_call : BaseCall) (r : RecorderMouseInput)
  : RecorderMouseInput :=
  let r := if m_recording r then emplace_back (Event_ctor LCLK_D 0 0) r else r in
  if negb (m_playing r) then base_call call_left_click_down r else r.

Definition left_click_up_with (base_call : BaseCall) (r : RecorderMouseInput)
  : RecorderMouseInput :=
  let r := if m_recording r then emplace_back (Event_ctor LCLK_U 0 0) r else r in
  if negb (m_playing r) then base_call call_left_click_up r else r.

Definition right_click_down_with (base_call : BaseCall) (r : RecorderMouseInput)
  : RecorderMouseInput :=
  let r := if m_recording r then emplace_back (Event_ctor RCLK_D 0 0) r else r in
  if negb (m_playing r) then base_call call_right_click_down r else r.

Definition right_click_up_with (base_call : BaseCall) (r : RecorderMouseInput)
  : RecorderMouseInput :=
  let r := if m_recording r then emplace_back (Event_ctor RCLK_U 0 0) r else r in
  if negb (m_playing r) then base_call call_right_click_up r else r.

Definition double_click_with (base_call : BaseCall) (r : RecorderMouseInput)
  : RecorderMouseInput :=
  let r := if m_recording r then emplace_back (Event_ctor DDCLK 0 0) r else r in
  if negb (m_playing r) then base_call call_double_click r else r.

Definition scroll_with (base_call : BaseCall) (v d : Z) (wa : WheelAxis) (r : RecorderMouseInput)
  : RecorderMouseInput :=
  let r := if m_recording r then emplace_back (Event_ctor SCRL v d) r else r in
  if negb (m_playing r) then base_call (call_scroll v d wa) r else r.

Definition move_to_with (base_call : BaseCall) (x y : Z) (r : RecorderMouseInput)
  : RecorderMouseInput :=
  let r := if m_recording r then emplace_back (Event_ctor MV x y) r else r in
  if negb (m_playing r) then base_call (call_move_to x y) r else r.

Definition left_click_down := left_click_down_with MouseInput_.

Definition left_click_up := left_click_up_with MouseInput_.

Definition right_click_down := right_click_down_with MouseInput_.

Definition right_click_up := right_click_up_with MouseInput_.

Definition double_click := double_click_with MouseInput_.

Definition scroll := scroll_with MouseInput_.

Definition move_to := move_to_with MouseInput_.

(** Virtual dispatch of an interface call on a recorder object, the
    base-class methods being [base_call]. *)
Definition report_with (base_call : BaseCall) (c : Call)
  : RecorderMouseInput -> RecorderMouseInput :=
  match c with
  | call_left_click_down  => left_click_down_with base_call
  | call_left_click_up    => left_click_up_with base_call
  | call_right_click_down => right_click_down_with base_call
  | call_right_click_up   => right_click_up_with base_call
  | call_double_click     => double_click_with base_call
  | call_scroll v d wa    => scroll_with base_call v d wa
  | call_move_to x y      => move_to_with base_call x y
  end.

(** Virtual dispatch of an interface call on a recorder object. *)
Definition report (c : Call) : RecorderMouseInput -> RecorderMouseInput :=
  match c with
  | call_left_click_down  => left_click_down
  | call_left_click_up    => left_click_up
  | call_right_click_down => right_click_down
  | call_right_click_up   => right_click_up
  | call_double_click     => double_click
  | call_scroll v d wa    => scroll v d wa
  | call_move_to x y      => move_to x y
  end.

(** *** save *)

Definition save_event (evt : Event) (stream : ostream) : ostream :=
  endl (put_int (b evt)
       (put_str " " (put_int (a evt)
       (put_str " " (put_int (type evt) stream))))).

Definition save (r : RecorderMouseInput) (stream : ostream) : ostream :=
  fold_left (fun os evt => save_event evt os) (m_events r) stream.

(** *** load *)

(** The locals [int type; long a, b;] of the loop body are not
    initialised.  [Indeterminate] supplies the values they happen to hold
    in a given turn of the loop (numbered by the events loaded so far). *)
Record Locals := mk_Locals { type0 : Z; a0 : Z; b0 : Z }.

Definition Indeterminate := nat -> Locals.

(** One turn of the loop body: three extractions, then the
    [emplace_back], whatever the extractions did. *)
Definition load_body (ind : Indeterminate) (stream : istream)
  (evs : list Event) : istream * list Event :=
  let locals := ind (List.length evs) in
  let (s1, ty) := extract_int stream (type0 locals) in
  let (s2, x) := extract_long s1 (a0 locals) in
  let (s3, y) := extract_long s2 (b0 locals) in
  (s3, evs ++ [{| type := ty; a := x; b := y |}]).

(** [while (stream.good()) { ... }], with a bound on the number of turns;
    [None] when the bound is reached. *)
Fixpoint load_loop (fuel : nat) (ind : Indeterminate) (stream : istream)
  (evs : list Event) : option (istream * list Event) :=
  match fuel with
  | O => None
  | S fuel' =>
      if good stream then
        let (stream', evs') := load_body ind stream evs in
        load_loop fuel' ind stream' evs'
      else Some (stream, evs)
  end.

(** A good stream loses at least one character per turn, so this many
    turns are enough (see [load_loop_enough]). *)
Definition load_fuel (stream : istream) : nat :=
  S (S (String.length (buf stream))).

Definition load (ind : Indeterminate) (stream : istream)
  (r : RecorderMouseInput) : option (istream * RecorderMouseInput) :=
  let r := set_events [] r in
  match load_loop (load_fuel stream) ind stream (m_events r) with
  | Some (stream', evs) => Some (stream', set_events evs r)
  | None => None
  end.

(** *** record and play *)

Definition record (rec : bool) (r : RecorderMouseInput) : RecorderMouseInput :=
  let r := set_recording rec r in
  if rec then set_events [] r else r.

(** The [switch] of [play]: the base-class call an event is replayed as;
    a value that names no enumerator matches no [case]. *)
Definition play_event (evt : Event) (r : RecorderMouseInput)
  : RecorderMouseInput :=
  match EEvents_named (type evt) with
  | Some LCLK_U => MouseInput_ call_left_click_up r
  | Some LCLK_D => MouseInput_ call_left_click_down r
  | Some RCLK_U => MouseInput_ call_right_click_up r
  | Some RCLK_D => MouseInput_ call_right_click_down r
  | Some DDCLK  => MouseInput_ call_double_click r
  | Some SCRL   => MouseInput_ (call_scroll (a evt) (b evt) waVertical) r
  | Some MV     => MouseInput_ (call_move_to (a evt) (b evt)) r
  | None        => r
  end.

(** [wxSafeYield()]: pending paint and idle events are handled with user
    input disabled; none of those handlers touches the recorder. *)
Definition wxSafeYield (r : RecorderMouseInput) : RecorderMouseInput := r.

(** The body of the [for] loop, over the events still to replay. *)
Fixpoint play_loop (evts : list Event) (r : RecorderMouseInput)
  : RecorderMouseInput :=
  match evts with
  | [] => r
  | evt :: rest => play_loop rest (wxSafeYield (play_event evt r))
  end.

(** The recorder as it stands at each [wxSafeYield] of the loop. *)
Fixpoint play_yields (evts : list Event) (r : RecorderMouseInput)
  : list RecorderMouseInput :=
  match evts with
  | [] => []
  | evt :: rest =>
      let r' := play_event evt r in r' :: play_yields rest (wxSafeYield r')
  end.

Definition play_begin (r : RecorderMouseInput) := set_playing true r.

Definition play (r : RecorderMouseInput) : RecorderMouseInput :=
  let r := play_begin r in
  let r := play_loop (m_events r) r in
  set_playing false r.

(** ** The frame: settings, recording control and the load job *)

Inductive failure :=
| std_exception (what : string)     (* derived from [std::exception] *)
| other_exception.                  (* anything else that is thrown *)

Record SlicingStatus := mk_status { percent : Z; text : string }.

Section Frame.

(** Types and operations of GLScene.hpp and libslic3r that main.cpp only
    uses. *)
Variables CSGSettings Canvas Model SLAPrint : Type.

Variable get_csgsettings : Canvas -> CSGSettings.
Variable apply_csgsettings : CSGSettings -> Canvas -> Canvas.
Variable set_convexity : Z -> CSGSettings -> CSGSettings.
Variable has_camera : Canvas -> bool.
Variable reset_camera : Canvas -> Canvas.
Variable on_scene_updated : Canvas -> Canvas.

(** [Model::read_from_file(fname, &cfg)] *)
Variable read_from_file : string -> failure + Model.
(** [std::make_unique<SLAPrint>()] *)
Variable new_print : SLAPrint.
(** [m_print->apply(model, cfg)]: the print afterwards, and the failure
    it raised, if any. *)
Variable print_apply : Model -> SLAPrint -> SLAPrint * option failure.
(** [m_print->set_task(params)] with [to_object_step = slaposHollowing] *)
Variable print_set_task : SLAPrint -> SLAPrint.
(** [m_print->process()]: the statuses handed to the status callback, the
    print afterwards, and the failure it raised, if any. *)
Variable print_process :
  SLAPrint -> list SlicingStatus * SLAPrint * option failure.

Record SLAJob := mk_SLAJob {
  m_fname : string;
  m_print : option SLAPrint
}.

Record MyFrame := mk_MyFrame {
  m_scene_print : option SLAPrint;     (* the print held by [m_scene] *)
  m_canvas      : Canvas;
  m_stbar       : string;              (* the status text shown *)
  m_mouse       : RecorderMouseInput;
  m_ui_job      : option SLAJob
}.

Definition set_status_text (t : string) (fr : MyFrame) : MyFrame :=
  {| m_scene_print := m_scene_print fr; m_canvas := m_canvas fr;
     m_stbar := t; m_mouse := m_mouse fr; m_ui_job := m_ui_job fr |}.

Definition set_canvas (c : Canvas) (fr : MyFrame) : MyFrame :=
  {| m_scene_print := m_scene_print fr; m_canvas := c;
     m_stbar := m_stbar fr; m_mouse := m_mouse fr; m_ui_job := m_ui_job fr |}.

Definition set_mouse (ms : RecorderMouseInput) (fr : MyFrame) : MyFrame :=
  {| m_scene_print := m_scene_print fr; m_canvas := m_canvas fr;
     m_stbar := m_stbar fr; m_mouse := ms; m_ui_job := m_ui_job fr |}.

Definition set_print (p : option SLAPrint) (fr : MyFrame) : MyFrame :=
  {| m_scene_print := p; m_canvas := m_canvas fr;
     m_stbar := m_stbar fr; m_mouse := m_mouse fr; m_ui_job := m_ui_job fr |}.

Definition set_ui_job (j : option SLAJob) (fr : MyFrame) : MyFrame :=
  {| m_scene_print := m_scene_print fr; m_canvas := m_canvas fr;
     m_stbar := m_stbar fr; m_mouse := m_mouse fr; m_ui_job := j |}.

(** *** The handler of the convexity spin control *)

(** [unsigned(c)] for an [int] *)
Definition to_unsigned (c : Z) : Z := c mod 2 ^ 32.

(** [GetValue] is what [convexity_spin->GetValue()] returns. *)
Definition convexity_spin_handler (GetValue : Z) (fr : MyFrame) : MyFrame :=
  let settings := get_csgsettings (m_canvas fr) in
  let c := GetValue in
  if 0 <? c then
    let settings := set_convexity (to_unsigned c) settings in
    set_canvas (apply_csgsettings settings (m_canvas fr)) fr
  else fr.

(** *** The handler of the Record toggle button *)

(** [GetValue] is the state of the button, [dlg] the path chosen in the
    file dialog ([None] unless it returned [wxID_OK]), [stream_good]
    whether the output file could be opened.  The second component of
    the result is the file written, if any: its path and its text. *)
Definition record_btn_handler (GetValue : bool) (dlg : option string)
  (stream_good : bool) (fr : MyFrame) : MyFrame * option (string * ostream) :=
  match m_ui_job fr with
  | None => (set_status_text "No project loaded!" fr, None)
  | Some job =>
      if GetValue then
        let fr :=
          if has_camera (m_canvas fr)
          then set_canvas (reset_camera (m_canvas fr)) fr else fr in
        let fr := set_canvas (on_scene_updated (m_canvas fr)) fr in
        (set_mouse (record true (m_mouse fr)) fr, None)
      else
        let fr := set_mouse (record false (m_mouse fr)) fr in
        match dlg with
        | Some path =>
            if stream_good then
              let stream := put_str (String endl_char EmptyString)
                              (put_str (m_fname job) EmptyString) in
              (fr, Some (path, save (m_mouse fr) stream))
            else (fr, None)
        | None => (fr, None)
        end
  end.

(** *** SLAJob *)

(** [SLAJob::process].  The result is the job afterwards, the calls of
    [update_status] in order, and the failure that leaves [process], if
    one does.  Only [m_print->process()] stands inside the [try], and the
    handler catches [std::exception] only. *)
Definition process (job : SLAJob)
  : SLAJob * list SlicingStatus * option failure :=
  match read_from_file (m_fname job) with
  | inl f => (job, [], Some f)
  | inr model =>
      let (pr, thrown) := print_apply model new_print in
      let job := {| m_fname := m_fname job; m_print := Some pr |} in
      match thrown with
      | Some f => (job, [], Some f)
      | None =>
          let pr := print_set_task pr in
          let '(statuses, pr, thrown) := print_process pr in
          let job := {| m_fname := m_fname job; m_print := Some pr |} in
          match thrown with
          | None => (job, statuses, None)
          | Some (std_exception what) =>
              (job,
               statuses ++
               [{| percent := 0;
                   text := ("Exception during processing: " ++ what)%string |}],
               None)
          | Some f => (job, statuses, Some f)
          end
      end
  end.

(** The failure raised while [process] runs, caught or not: by reading
    the model, else by applying the configuration, else by slicing. *)
Definition raised_in_process (job : SLAJob) : option failure :=
  match read_from_file (m_fname job) with
  | inl f => Some f
  | inr model =>
      match print_apply model new_print with
      | (_, Some f) => Some f
      | (pr, None) => snd (print_process (print_set_task pr))
      end
  end.

(** [SLAJob::finalize] *)
Definition finalize (job : SLAJob) (fr : MyFrame) : MyFrame :=
  let fr := set_print (m_print job) fr in
  set_status_text ("Model " ++ m_fname job ++ " loaded.")%string fr.

(** What a run of a job shows to the interactive context. *)
Inductive JobEvent :=
| ev_status (st : SlicingStatus)
| ev_finalize.

(** Modelled from the spec: [Job::start] and the job boundary around
    [process] belong to slic3r/GUI/Job.hpp, which is not among the
    sources.  Per the spec, [process] runs, a failure that leaves it is
    caught at the boundary and turned into a report with percent 0 and a
    descriptive text ([describe]), and then [finalize] runs once on the
    interactive context. *)
Definition Job_run (describe : failure -> string) (job : SLAJob)
  (fr : MyFrame) : MyFrame * list JobEvent :=
  let '(job, statuses, escaped) := process job in
  let reports :=
    match escaped with
    | None => statuses
    | Some f => statuses ++ [{| percent := 0; text := describe f |}]
    end in
  (finalize job fr, map ev_status reports ++ [ev_finalize]).

(** [MyFrame::load_model]: the job slot is overwritten and the job
    started. *)
Definition load_model (describe : failure -> string) (fname : string)
  (fr : MyFrame) : MyFrame * list JobEvent :=
  let job := {| m_fname := fname; m_print := None |} in
  let fr := set_ui_job (Some job) fr in
  Job_run describe job fr.

End Frame.

Arguments m_fname {SLAPrint}.
Arguments m_print {SLAPrint}.
Arguments mk_SLAJob {SLAPrint}.
Arguments m_scene_print {Canvas SLAPrint}.
Arguments m_canvas {Canvas SLAPrint}.
Arguments m_stbar {Canvas SLAPrint}.
Arguments m_mouse {Canvas SLAPrint}.
Arguments m_ui_job {Canvas SLAPrint}.
Arguments mk_MyFrame {Canvas SLAPrint}.
Arguments set_status_text {Canvas SLAPrint}.
Arguments set_canvas {Canvas SLAPrint}.
Arguments set_mouse {Canvas SLAPrint}.
Arguments set_print {Canvas SLAPrint}.
Arguments set_ui_job {Canvas SLAPrint}.
Arguments convexity_spin_handler {CSGSettings Canvas SLAPrint}.
Arguments record_btn_handler {Canvas SLAPrint}.
Arguments process {Model SLAPrint}.
Arguments raised_in_process {Model SLAPrint}.
Arguments finalize {Canvas SLAPrint}.
Arguments Job_run {Canvas Model SLAPrint}.
Arguments load_model {Canvas Model SLAPrint}.

(** ** Canvas events, playback from a file and the start of the application *)

(** *** [std::getline] *)

(** The text up to the first line feed, and the text after that line feed
    when there is one. *)
Fixpoint read_line (t : string) : string * option string :=
  match t with
  | EmptyString => (EmptyString, None)
  | String c r =>
      if (c =? endl_char)%char then (EmptyString, Some r)
      else let (line, rest) := read_line r in (String c line, rest)
  end.

(** [std::getline(stream, str)] with [str] holding [old]: on a stream that
    is not good the sentry fails and [str] is left alone; otherwise [str]
    receives the characters up to the line feed, which is consumed; running
    into the end sets [eofbit], and [failbit] too when nothing was read. *)
Definition getline (s : istream) (old : string) : istream * string :=
  if good s then
    match read_line (buf s) with
    | (line, Some rest) =>
        ({| buf := rest; eofbit := eofbit s; failbit := failbit s |}, line)
    | (line, None) =>
        ({| buf := EmptyString; eofbit := true;
            failbit := failbit s || at_end line |}, line)
    end
  else ({| buf := buf s; eofbit := eofbit s; failbit := true |}, old).

(** *** [MyFrame::bind_canvas_events] *)

Inductive wxMouseWheelAxis :=
| wxMOUSE_WHEEL_VERTICAL
| wxMOUSE_WHEEL_HORIZONTAL.

(** The mouse events of the canvas.  [bind_canvas_events] binds a handler
    to the first six kinds; [wxEVT_unbound] stands for every other kind
    (a double click, a middle button, ...), which finds no handler. *)
Inductive wxMouseEvent :=
| wxEVT_MOUSEWHEEL (GetWheelRotation GetWheelDelta : Z)
                   (GetWheelAxis : wxMouseWheelAxis)
| wxEVT_MOTION (x y : Z)
| wxEVT_RIGHT_DOWN
| wxEVT_RIGHT_UP
| wxEVT_LEFT_DOWN
| wxEVT_LEFT_UP
| wxEVT_unbound.

(** The handlers bound to the canvas, as they act on the mouse input [ms]
    they were bound with. *)
Definition canvas_event (evt : wxMouseEvent) (ms : RecorderMouseInput)
  : RecorderMouseInput :=
  match evt with
  | wxEVT_MOUSEWHEEL rotation delta axis =>
      scroll rotation delta
        (match axis with
         | wxMOUSE_WHEEL_VERTICAL => waVertical
         | _ => waHorizontal
         end) ms
  | wxEVT_MOTION x y => move_to x y ms
  | wxEVT_RIGHT_DOWN => right_click_down ms
  | wxEVT_RIGHT_UP => right_click_up ms
  | wxEVT_LEFT_DOWN => left_click_down ms
  | wxEVT_LEFT_UP => left_click_up ms
  | wxEVT_unbound => ms
  end.

(** A run of canvas events, handled one after the other. *)
Definition canvas_events (evts : list wxMouseEvent) (ms : RecorderMouseInput)
  : RecorderMouseInput :=
  fold_left (fun ms evt => canvas_event evt ms) evts ms.

Section Application.

Variables Canvas Model SLAPrint : Type.

Variable has_camera : Canvas -> bool.
Variable reset_camera : Canvas -> Canvas.
Variable on_scene_updated : Canvas -> Canvas.
Variable read_from_file : string -> failure + Model.
Variable new_print : SLAPrint.
Variable print_apply : Model -> SLAPrint -> SLAPrint * option failure.
Variable print_set_task : SLAPrint -> SLAPrint.
Variable print_process :
  SLAPrint -> list SlicingStatus * SLAPrint * option failure.
Variable describe : failure -> string.

(** The files that can be opened for reading, with their text:
    [std::fstream stream(name, std::fstream::in)] is good exactly on
    those. *)
Variable open_in : string -> option string.

(** The canvas events reach the frame's [m_mouse]
    ([bind_canvas_events(m_mouse)] at the end of the constructor). *)
Definition on_canvas_events (evts : list wxMouseEvent)
  (fr : MyFrame Canvas SLAPrint) : MyFrame Canvas SLAPrint :=
  set_mouse (canvas_events evts (m_mouse fr)) fr.

(** [MyFrame::play_back_mouse].  The result is the frame afterwards and
    what the job started by [load_model] showed; [None] only if the loop of
    [load] were cut off by its bound. *)
Definition play_back_mouse (ind : Indeterminate) (events_fname : string)
  (fr : MyFrame Canvas SLAPrint)
  : option (MyFrame Canvas SLAPrint * list JobEvent) :=
  match open_in events_fname with
  | Some content =>
      let stream := istream_of content in
      if good stream then
        let (stream, model_name) := getline stream EmptyString in
        let (fr, shown) :=
          load_model read_from_file new_print print_apply print_set_task
            print_process describe model_name fr in
        match load ind stream (m_mouse fr) with
        | Some (_, ms) => Some (set_mouse (play ms) fr, shown)
        | None => None
        end
      else Some (fr, [])
  | None => Some (fr, [])
  end.

(** What [App::OnInit] leaves: the frame, and whether it is still shown
    ([Close(true)] follows the playback). *)
Record Started := mk_Started {
  started_frame : MyFrame Canvas SLAPrint;
  started_shown : bool;
  started_job   : list JobEvent
}.

(** [App::OnInit] for the command line [argv] (program name first);
    [frame] is the frame the constructor built. *)
Definition OnInit (ind : Indeterminate) (argv : list string)
  (frame : MyFrame Canvas SLAPrint) : option Started :=
  let argc := Z.of_nat (List.length argv) in
  let (command, fname) :=
    if 2 <? argc
    then (nth 1 argv EmptyString, nth 2 argv EmptyString)
    else (EmptyString, EmptyString) in
  if (command =? "play")%string then
    match play_back_mouse ind fname frame with
    | Some (frame, shown) =>
        Some {| started_frame := frame; started_shown := false;
                started_job := shown |}
    | None => None
    end
  else Some {| started_frame := frame; started_shown := true;
               started_job := [] |}.

End Application.

Arguments on_canvas_events {Canvas SLAPrint}.
Arguments play_back_mouse {Canvas Model SLAPrint}.
Arguments OnInit {Canvas Model SLAPrint}.
Arguments started_frame {Canvas SLAPrint}.
Arguments started_shown {Canvas SLAPrint}.
Arguments started_job {Canvas SLAPrint}.
Arguments mk_Started {Canvas SLAPrint}.

(** ** Notions used in the statements *)

(** The event a report operation logs while recording. *)
Definition event_of_call (c : Call) : Event :=
  match c with
  | call_left_click_down  => Event_ctor LCLK_D 0 0
  | call_left_click_up    => Event_ctor LCLK_U 0 0
  | call_right_click_down => Event_ctor RCLK_D 0 0
  | call_right_click_up   => Event_ctor RCLK_U 0 0
  | call_double_click     => Event_ctor DDCLK 0 0
  | call_scroll v d _     => Event_ctor SCRL v d
  | call_move_to x y      => Event_ctor MV x y
  end.

(** The event that corresponds to a report operation, written out: its
    kind by the ordinals of the log format (PointerUpLeft 0,
    PointerUpRight 1, PointerDownLeft 2, PointerDownRight 3, DoubleClick 4,
    Scroll 5, Move 6) and its parameters (none for the buttons, rotation
    and delta for a scroll, x and y for a move). *)
Definition corresponding_event (c : Call) : Event :=
  match c with
  | call_left_click_down  => {| type := 2; a := 0; b := 0 |}
  | call_left_click_up    => {| type := 0; a := 0; b := 0 |}
  | call_right_click_down => {| type := 3; a := 0; b := 0 |}
  | call_right_click_up   => {| type := 1; a := 0; b := 0 |}
  | call_double_click     => {| type := 4; a := 0; b := 0 |}
  | call_scroll v d _     => {| type := 5; a := v; b := d |}
  | call_move_to x y      => {| type := 6; a := x; b := y |}
  end.

(** The same call with the wheel axis of a scroll made vertical. *)
Definition vertical (c : Call) : Call :=
  match c with
  | call_scroll v d _ => call_scroll v d waVertical
  | _ => c
  end.

Definition is_vertical (c : Call) : bool :=
  match c with
  | call_scroll _ _ waHorizontal => false
  | _ => true
  end.

(** The base-class calls a log is replayed as. *)
Definition replay_calls (evts : list Event) : list Call :=
  flat_map (fun evt =>
    match EEvents_named (type evt) with
    | Some LCLK_U => [call_left_click_up]
    | Some LCLK_D => [call_left_click_down]
    | Some RCLK_U => [call_right_click_up]
    | Some RCLK_D => [call_right_click_down]
    | Some DDCLK  => [call_double_click]
    | Some SCRL   => [call_scroll (a evt) (b evt) waVertical]
    | Some MV     => [call_move_to (a evt) (b evt)]
    | None        => []
    end) evts.

(** A live interaction: the user's calls arrive at the recorder one by one. *)
Definition live (cs : list Call) (r : RecorderMouseInput) : RecorderMouseInput :=
  fold_left (fun r c => report c r) cs r.

(** What a listener makes of the calls it is given. *)
Definition scene_after {Scene : Type} (on_call : Call -> Scene -> Scene)
  (cs : list Call) (s : Scene) : Scene :=
  fold_left (fun s c => on_call c s) cs s.

(** The line of text of one event, and the text of a log. *)
Definition event_line (evt : Event) : string :=
  (show_int (type evt) ++ " " ++ show_int (a evt) ++ " " ++ show_int (b evt)
   ++ String endl_char EmptyString)%string.

Definition event_lines (evts : list Event) : string :=
  fold_right (fun evt t => (event_line evt ++ t)%string) EmptyString evts.

(** Values that an [int] kind and two [long] parameters can hold. *)
Definition Event_in_range (evt : Event) : bool :=
  (INT_MIN <=? type evt) && (type evt <=? INT_MAX)
  && (LONG_MIN <=? a evt) && (a evt <=? LONG_MAX)
  && (LONG_MIN <=? b evt) && (b evt <=? LONG_MAX).

(** The event the loop of [load] appends in a turn whose extractions all
    stop at the sentry: the three locals as they happened to be. *)
Definition indeterminate_event (ind : Indeterminate) (n : nat) : Event :=
  {| type := type0 (ind n); a := a0 (ind n); b := b0 (ind n) |}.

(** The value [get_digits] reaches on the digits [d], read from the most
    significant one, starting from [acc]. *)
Fixpoint uint_acc (d : uint) (acc : Z) : Z :=
  match d with
  | Nil => acc
  | D0 d => uint_acc d (acc * 10 + 0)
  | D1 d => uint_acc d (acc * 10 + 1)
  | D2 d => uint_acc d (acc * 10 + 2)
  | D3 d => uint_acc d (acc * 10 + 3)
  | D4 d => uint_acc d (acc * 10 + 4)
  | D5 d => uint_acc d (acc * 10 + 5)
  | D6 d => uint_acc d (acc * 10 + 6)
  | D7 d => uint_acc d (acc * 10 + 7)
  | D8 d => uint_acc d (acc * 10 + 8)
  | D9 d => uint_acc d (acc * 10 + 9)
  end.

(** Complete calls of the public operations of a recorder. *)
Inductive Op :=
| op_report (c : Call)
| op_record (rec : bool)
| op_play
| op_load (ind : Indeterminate) (text : string).

Definition run_op (o : Op) (r : RecorderMouseInput) : RecorderMouseInput :=
  match o with
  | op_report c => report c r
  | op_record rec => record rec r
  | op_play => play r
  | op_load ind text =>
      match load ind (istream_of text) r with
      | Some (_, r') => r'
      | None => r
      end
  end.

(** The states a recorder can be in between two operations. *)
Inductive reachable : RecorderMouseInput -> Prop :=
| reachable_init : reachable Recorder_init
| reachable_step : forall o r, reachable r -> reachable (run_op o r).

(** The call a canvas event makes on the mouse input, if its kind has a
    handler. *)
Definition canvas_call (evt : wxMouseEvent) : option Call :=
  match evt with
  | wxEVT_MOUSEWHEEL rotation delta wxMOUSE_WHEEL_VERTICAL =>
      Some (call_scroll rotation delta waVertical)
  | wxEVT_MOUSEWHEEL rotation delta wxMOUSE_WHEEL_HORIZONTAL =>
      Some (call_scroll rotation delta waHorizontal)
  | wxEVT_MOTION x y => Some (call_move_to x y)
  | wxEVT_RIGHT_DOWN => Some call_right_click_down
  | wxEVT_RIGHT_UP => Some call_right_click_up
  | wxEVT_LEFT_DOWN => Some call_left_click_down
  | wxEVT_LEFT_UP => Some call_left_click_up
  | wxEVT_unbound => None
  end.

Definition canvas_calls (evts : list wxMouseEvent) : list Call :=
  flat_map (fun evt =>
    match canvas_call evt with Some c => [c] | None => [] end) evts.

(** Whether the kind of an event is one of the seven enumerators. *)
Definition is_named (evt : Event) : bool :=
  match EEvents_named (type evt) with Some _ => true | None => false end.

(** The text of an event without the end of the line. *)
Definition event_text (evt : Event) : string :=
  (show_int (type evt) ++ " " ++ show_int (a evt) ++ " "
   ++ show_int (b evt))%string.

(** Parameters that fit a [long]. *)
Definition Call_in_range (c : Call) : bool :=
  Event_in_range (event_of_call c).

Fixpoint no_line_feed (t : string) : bool :=
  match t with
  | String c r => negb (c =? endl_char)%char && no_line_feed r
  | EmptyString => true
  end.

(** Case analysis on the two flags of a recorder. *)
Ltac recorder_cases r :=
  let E := fresh "Hrec" in
  let F := fresh "Hplay" in
  destruct (m_recording r) eqn:E; simpl;
  destruct (m_playing r) eqn:F; simpl;
  rewrite ?E, ?F; simpl.

(** ** Properties of the report operations *)

Lemma report_unfold (c : Call) (r : RecorderMouseInput) :
  report c r =
  let r1 := if m_recording r then emplace_back (event_of_call c) r else r in
  if negb (m_playing r1) then MouseInput_ c r1 else r1.
Proof. destruct c; reflexivity. Qed.

Lemma report_playing (c : Call) (r : RecorderMouseInput) :
  m_playing (report c r) = m_playing r.
Proof. rewrite report_unfold; cbv zeta; recorder_cases r; auto. Qed.

Lemma report_recording (c : Call) (r : RecorderMouseInput) :
  m_recording (report c r) = m_recording r.
Proof. rewrite report_unfold; cbv zeta; recorder_cases r; auto. Qed.

(** What a report operation does to the log and to the wrapped
    dispatcher, by the two flags. *)
Lemma report_effect (c : Call) (r : RecorderMouseInput) :
  m_events (report c r) =
    (if m_recording r then m_events r ++ [event_of_call c] else m_events r)
  /\ dispatched (base (report c r)) =
       (if m_playing r then dispatched (base r)
        else dispatched (base r) ++ [c]).
Proof.
  rewrite report_unfold. cbv zeta. recorder_cases r; split; reflexivity.
Qed.

(** C5. Each report operation, if the recorder is recording, appends the
    corresponding event (its kind and its parameters as written out in
    [corresponding_event]) to the log before anything else: the base-class
    method, whatever it does, is run on the recorder with that event
    already in the log; and it is run if and only if the recorder is not
    playing.  With the base class of this development the log grows by the
    event exactly when recording and the dispatcher is given the call
    exactly when not playing. *)
Theorem report_logs_then_forwards
  (base_call : BaseCall) (c : Call) (r : RecorderMouseInput) :
  let logged :=
    if m_recording r
    then {| base := base r;
            m_events := m_events r ++ [corresponding_event c];
            m_recording := m_recording r;
            m_playing := m_playing r |}
    else r in
  report_with base_call c r =
    (if m_playing r then logged else base_call c logged)
  /\ report c r = report_with MouseInput_ c r
  /\ m_events (report c r) =
       (if m_recording r then m_events r ++ [corresponding_event c]
        else m_events r)
  /\ dispatched (base (report c r)) =
       (if m_playing r then dispatched (base r)
        else dispatched (base r) ++ [c]).
Proof.
  cbv zeta. split; [|split; [|split]].
  - destruct c; cbn [report_with];
      unfold left_click_down_with, left_click_up_with, right_click_down_with,
        right_click_up_with, double_click_with, scroll_with, move_to_with,
        emplace_back, set_events;
      cbv zeta; destruct (m_recording r) eqn:Hrec;
      cbn [m_playing]; destruct (m_playing r) eqn:Hplay;
      cbn [negb]; rewrite ?Hrec; reflexivity.
  - destruct c; reflexivity.
  - rewrite (proj1 (report_effect c r)). destruct c; reflexivity.
  - exact (proj2 (report_effect c r)).
Qed.

(** ** Properties of play *)

Lemma play_event_calls (evt : Event) (r : RecorderMouseInput) :
  play_event evt r =
  set_base {| dispatched := dispatched (base r) ++ replay_calls [evt] |} r.
Proof.
  destruct r as [[ds] es rc pl].
  unfold play_event, replay_calls; simpl.
  destruct (EEvents_named (type evt)) as [[]|];
    unfold MouseInput_, set_base, MouseInput_call; simpl;
    rewrite ?app_nil_r; reflexivity.
Qed.

Lemma replay_calls_app (es1 es2 : list Event) :
  replay_calls (es1 ++ es2) = replay_calls es1 ++ replay_calls es2.
Proof. unfold replay_calls. apply flat_map_app. Qed.

Lemma replay_calls_cons (e : Event) (es : list Event) :
  replay_calls (e :: es) = replay_calls [e] ++ replay_calls es.
Proof. exact (replay_calls_app [e] es). Qed.

Lemma play_loop_calls (evts : list Event) :
  forall r,
    play_loop evts r =
    set_base {| dispatched := dispatched (base r) ++ replay_calls evts |} r.
Proof.
  induction evts as [|evt rest IH]; intros r.
  - destruct r as [[ds] es rc pl]; unfold set_base; simpl.
    now rewrite app_nil_r.
  - simpl play_loop. unfold wxSafeYield. rewrite IH, play_event_calls.
    rewrite (replay_calls_cons evt rest).
    unfold set_base; simpl. now rewrite <- !app_assoc.
Qed.

Lemma play_dispatched (r : RecorderMouseInput) :
  dispatched (base (play r)) = dispatched (base r) ++ replay_calls (m_events r).
Proof. unfold play, play_begin. rewrite play_loop_calls. reflexivity. Qed.

Lemma play_events (r : RecorderMouseInput) : m_events (play r) = m_events r.
Proof. unfold play, play_begin. rewrite play_loop_calls. reflexivity. Qed.

Lemma play_recording (r : RecorderMouseInput) :
  m_recording (play r) = m_recording r.
Proof. unfold play, play_begin. rewrite play_loop_calls. reflexivity. Qed.

Lemma play_playing (r : RecorderMouseInput) : m_playing (play r) = false.
Proof. reflexivity. Qed.

Lemma play_yields_flags (evts : list Event) :
  forall r s, In s (play_yields evts r) ->
    m_recording s = m_recording r /\ m_playing s = m_playing r
    /\ m_events s = m_events r.
Proof.
  induction evts as [|evt rest IH]; intros r s; simpl.
  - intros [].
  - unfold wxSafeYield. intros [<- | Hin].
    + rewrite play_event_calls. repeat split; reflexivity.
    + destruct (IH _ _ Hin) as (H1 & H2 & H3).
      rewrite play_event_calls in H1, H2, H3. simpl in *. auto.
Qed.

Lemma play_loop_last_yield (evts : list Event) :
  forall r, play_loop evts r = last (play_yields evts r) r.
Proof.
  assert (Hlast : forall (l : list RecorderMouseInput) x d,
            last (x :: l) d = last l x).
  { induction l as [|y l IHl]; intros x d; [reflexivity|].
    change (last (x :: y :: l) d) with (last (y :: l) d).
    now rewrite !IHl. }
  induction evts as [|evt rest IH]; intros r; [reflexivity|].
  cbn [play_loop play_yields]. unfold wxSafeYield.
  now rewrite IH, Hlast.
Qed.

Lemma replay_of_recorded (cs : list Call) :
  replay_calls (map event_of_call cs) = map vertical cs.
Proof.
  induction cs as [|c cs IH]; [reflexivity|].
  simpl map. rewrite replay_calls_cons, IH. destruct c; reflexivity.
Qed.

Lemma vertical_id (cs : list Call) :
  forallb is_vertical cs = true -> map vertical cs = cs.
Proof.
  induction cs as [|c cs IH]; simpl; [reflexivity|].
  intros H. apply andb_prop in H. destruct H as [Hc Hcs].
  rewrite (IH Hcs). f_equal. destruct c; try reflexivity.
  destruct wa; [reflexivity | discriminate].
Qed.

(** ** Properties of a recording session *)

Lemma live_recording_session (cs : list Call) :
  forall r, m_recording r = true -> m_playing r = false ->
    m_events (live cs r) = m_events r ++ map event_of_call cs
    /\ dispatched (base (live cs r)) = dispatched (base r) ++ cs
    /\ m_recording (live cs r) = true /\ m_playing (live cs r) = false.
Proof.
  induction cs as [|c cs IH]; intros r Hrec Hplay.
  - simpl. rewrite !app_nil_r. auto.
  - simpl live. unfold live in *. simpl fold_left.
    destruct (report_effect c r) as (Hev & Hdisp).
    rewrite Hrec in Hev. rewrite Hplay in Hdisp.
    destruct (IH (report c r)) as (H1 & H2 & H3 & H4).
    + now rewrite report_recording.
    + now rewrite report_playing.
    + rewrite H1, H2, Hev, Hdisp. simpl map.
      rewrite <- !app_assoc. simpl. auto.
Qed.

Lemma record_true_state (r : RecorderMouseInput) :
  record true r =
  {| base := base r; m_events := []; m_recording := true;
     m_playing := m_playing r |}.
Proof. reflexivity. Qed.

Lemma record_false_state (r : RecorderMouseInput) :
  record false r =
  {| base := base r; m_events := m_events r; m_recording := false;
     m_playing := m_playing r |}.
Proof. reflexivity. Qed.

Lemma iter_play_state (n : nat) (r : RecorderMouseInput) :
  m_events (Nat.iter n play r) = m_events r.
Proof.
  induction n as [|n IH]; [reflexivity|].
  change (Nat.iter (S n) play r) with (play (Nat.iter n play r)).
  now rewrite play_events.
Qed.

(** ** Mutual exclusion of recording and playing *)

Lemma load_keeps_flags ind stream r stream' r' :
  load ind stream r = Some (stream', r') ->
  m_recording r' = m_recording r /\ m_playing r' = m_playing r
  /\ base r' = base r.
Proof.
  unfold load.
  destruct (load_loop _ _ _ _) as [[s evs]|]; [|discriminate].
  intros [= _ <-]. repeat split; reflexivity.
Qed.

Lemma run_op_playing (o : Op) (r : RecorderMouseInput) :
  m_playing r = false -> m_playing (run_op o r) = false.
Proof.
  intros H. destruct o as [c|rc| |ind txt]; simpl.
  - now rewrite report_playing.
  - destruct rc; exact H.
  - reflexivity.
  - destruct (load ind (istream_of txt) r) as [[s r']|] eqn:E; [|exact H].
    apply load_keeps_flags in E. destruct E as (_ & -> & _). exact H.
Qed.

(** C1 (as the code has it). Between operations a recorder is never
    playing, so recording and playing are never both set there.  Nothing is
    rejected, though: [play] on a recording recorder replays the log with
    both flags set at every yield, and returns with the playing flag clear
    and the recording flag and the log as they were; [record] sets the
    recording flag to its argument whatever the playing flag is, and
    empties the log when the argument is true. *)
Theorem recorder_flags_between_operations :
  (forall r, reachable r ->
     m_playing r = false /\ m_recording r && m_playing r = false)
  /\ (forall r,
        m_playing (play r) = false
        /\ m_recording (play r) = m_recording r
        /\ m_events (play r) = m_events r
        /\ dispatched (base (play r)) =
             dispatched (base r) ++ replay_calls (m_events r)
        /\ forall s, In s (play_yields (m_events (play_begin r)) (play_begin r)) ->
             m_playing s = true /\ m_recording s = m_recording r)
  /\ (forall rec r,
        m_recording (record rec r) = rec
        /\ m_playing (record rec r) = m_playing r
        /\ m_events (record rec r) = (if rec then [] else m_events r)).
Proof.
  split; [|split].
  - intros r Hr. assert (Hp : m_playing r = false).
    { induction Hr as [|o r Hr IH]; [reflexivity|].
      now apply run_op_playing. }
    split; [exact Hp|]. rewrite Hp. apply andb_false_r.
  - intros r. rewrite play_recording, play_events, play_dispatched.
    repeat split.
    + apply play_yields_flags in H. tauto.
    + apply play_yields_flags in H. tauto.
  - intros rc r. destruct rc; repeat split.
Qed.

(** C1 does not hold as stated: started on a recorder that is recording,
    [play] is not rejected (the log is replayed to the wrapped dispatcher,
    with both flags set meanwhile), and [record(true)] on a recorder that
    is playing sets the recording flag and empties the log. *)
Lemma play_while_recording_not_rejected :
  let r := report (call_move_to 10 20) (record true Recorder_init) in
  let p := set_playing true (set_events [Event_ctor MV 10 20] Recorder_init) in
  m_recording r = true
  /\ play r <> r
  /\ (exists s, In s (play_yields (m_events (play_begin r)) (play_begin r))
                /\ m_recording s = true /\ m_playing s = true)
  /\ m_playing p = true
  /\ record true p <> p
  /\ m_recording (record true p) && m_playing (record true p) = true.
Proof.
  cbv zeta. split; [reflexivity|]. split; [discriminate|].
  split; [|split; [reflexivity|split; [discriminate|reflexivity]]].
  eexists. split; [left; reflexivity|]. split; reflexivity.
Qed.

(** ** Replay against the live interaction *)

(** C9. A scroll is logged with its rotation and its delta only, whatever
    its wheel axis, and every scroll that [play] hands to the wrapped
    dispatcher has the vertical axis. *)
Theorem scroll_axis_not_logged_and_replayed_vertical :
  (forall v d wa r,
     m_events (scroll v d wa r) =
       (if m_recording r then m_events r ++ [Event_ctor SCRL v d]
        else m_events r))
  /\ (forall v d r,
        m_events (scroll v d waHorizontal r) = m_events (scroll v d waVertical r))
  /\ (forall r,
        dispatched (base (play r)) =
          dispatched (base r) ++ replay_calls (m_events r))
  /\ (forall evts v d wa,
        In (call_scroll v d wa) (replay_calls evts) -> wa = waVertical)
  /\ (forall v d wa r,
        m_playing r = false ->
        dispatched (base (play (scroll v d wa (record true r)))) =
          dispatched (base r) ++ [call_scroll v d wa; call_scroll v d waVertical]).
Proof.
  repeat split.
  - intros v d wa r.
    exact (proj1 (report_effect (call_scroll v d wa) r)).
  - intros v d r.
    destruct (report_effect (call_scroll v d waHorizontal) r) as (H1 & _).
    destruct (report_effect (call_scroll v d waVertical) r) as (H2 & _).
    simpl report in H1, H2. now rewrite H1, H2.
  - apply play_dispatched.
  - intros evts v d wa. unfold replay_calls. rewrite in_flat_map.
    intros (evt & _ & Hin).
    destruct (EEvents_named (type evt)) as [[]|]; simpl in Hin;
      intuition (try discriminate; congruence).
  - intros v d wa r Hplay. rewrite play_dispatched.
    destruct (live_recording_session [call_scroll v d wa] (record true r))
      as (Hev & Hdisp & _); [reflexivity | exact Hplay |].
    change (live [call_scroll v d wa] (record true r))
      with (scroll v d wa (record true r)) in Hev, Hdisp.
    rewrite Hev, Hdisp. simpl. now rewrite <- app_assoc.
Qed.

(** C2 (as the code has it). After a recording session in which the calls
    [cs] arrived live, the dispatcher has been driven with [cs], and every
    later [play] drives it with the same calls in the same order except
    that each scroll is given the vertical wheel axis; [play] leaves the
    log as it was, so this holds however often it is invoked.  When no
    scroll of the session was horizontal the replayed calls are [cs]
    themselves, and a replay takes any listener from the state it is in to
    the state the live interaction gives from there. *)
Theorem play_replays_session_with_vertical_scrolls :
  forall (cs : list Call) (r : RecorderMouseInput),
    m_playing r = false ->
    let rec := record false (live cs (record true r)) in
    dispatched (base rec) = dispatched (base r) ++ cs
    /\ (forall n : nat,
          let before := Nat.iter n play rec in
          dispatched (base (play before)) =
            dispatched (base before) ++ map vertical cs
          /\ m_events (play before) = m_events rec)
    /\ (forallb is_vertical cs = true ->
        forall (n : nat) (Scene : Type) (on_call : Call -> Scene -> Scene)
               (s : Scene),
          let before := Nat.iter n play rec in
          scene_after on_call (dispatched (base (play before))) s =
          scene_after on_call cs
            (scene_after on_call (dispatched (base before)) s)).
Proof.
  intros cs r Hplay rec.
  destruct (live_recording_session cs (record true r))
    as (Hev & Hdisp & _ & _); [reflexivity | exact Hplay |].
  assert (Hlog : m_events rec = map event_of_call cs) by exact Hev.
  split; [exact Hdisp|]. split.
  - intros n before. rewrite play_dispatched, play_events.
    unfold before. rewrite iter_play_state, Hlog, replay_of_recorded. auto.
  - intros Hv n Scene on_call s before. unfold scene_after.
    rewrite <- fold_left_app. f_equal.
    rewrite play_dispatched. unfold before.
    now rewrite iter_play_state, Hlog, replay_of_recorded, (vertical_id cs Hv).
Qed.

Lemma play_replays_session_witness :
  dispatched (base (play (record false
    (live [call_move_to 10 20; call_left_click_down; call_left_click_up]
          (record true Recorder_init))))) =
  dispatched (base (record false
    (live [call_move_to 10 20; call_left_click_down; call_left_click_up]
          (record true Recorder_init)))) ++
    map vertical [call_move_to 10 20; call_left_click_down; call_left_click_up].
Proof.
  exact (proj1 (proj1 (proj2 (play_replays_session_with_vertical_scrolls
    [call_move_to 10 20; call_left_click_down; call_left_click_up]
    Recorder_init eq_refl)) O)).
Defined.

(** C2 does not hold as stated: a horizontal scroll that was recorded live
    is replayed as a vertical one.  With the recorded log in front of a
    dispatcher in its initial state, [play] does not drive it with the
    calls of the live interaction, and a listener that tells the axes apart
    ends in another state. *)
Lemma horizontal_scroll_replayed_differently :
  let cs := [call_scroll 120 120 waHorizontal] in
  let rec := record false (live cs (record true Recorder_init)) in
  let fresh := set_base {| dispatched := [] |} rec in
  let count_horizontal (c : Call) (n : nat) :=
    match c with call_scroll _ _ waHorizontal => S n | _ => n end in
  dispatched (base rec) = cs
  /\ m_events fresh = m_events rec
  /\ dispatched (base (play fresh)) = [call_scroll 120 120 waVertical]
  /\ dispatched (base (play fresh)) <> cs
  /\ scene_after count_horizontal (dispatched (base (play fresh))) O <>
     scene_after count_horizontal (dispatched (base rec)) O.
Proof.
  cbv zeta. repeat split; try reflexivity; discriminate.
Qed.

(** ** The handlers of the frame *)

Section FrameProperties.

Context {CSGSettings Canvas Model SLAPrint : Type}.
Context (get_csgsettings : Canvas -> CSGSettings)
        (apply_csgsettings : CSGSettings -> Canvas -> Canvas)
        (set_convexity : Z -> CSGSettings -> CSGSettings)
        (get_convexity : CSGSettings -> Z)
        (has_camera : Canvas -> bool)
        (reset_camera on_scene_updated : Canvas -> Canvas).

(** C7. With a positive convexity [v] in effect, a spin-control value
    that is zero or negative changes nothing: the frame, and with it the
    canvas and its settings, is what it was (so [apply_csgsettings], which
    is arbitrary here, has not been used), and the convexity read
    afterwards is [v]. *)
Theorem non_positive_convexity_rejected
  (fr : MyFrame Canvas SLAPrint) (c v : Z) :
  get_convexity (get_csgsettings (m_canvas fr)) = v ->
  0 < v ->
  c <= 0 ->
  let fr' := convexity_spin_handler get_csgsettings apply_csgsettings
               set_convexity c fr in
  fr' = fr /\ get_convexity (get_csgsettings (m_canvas fr')) = v.
Proof.
  intros Hv _ Hc. cbv zeta. unfold convexity_spin_handler.
  destruct (0 <? c) eqn:E.
  - apply Z.ltb_lt in E. lia.
  - auto.
Qed.

(** C10. With an empty job slot the Record toggle only sets the status
    text: recorder and log, canvas, scene and job slot stay as they were
    and no file is written, whatever the state of the button. *)
Theorem record_toggle_without_project
  (GetValue : bool) (dlg : option string) (stream_good : bool)
  (fr : MyFrame Canvas SLAPrint) :
  m_ui_job fr = None ->
  let res := record_btn_handler has_camera reset_camera on_scene_updated
               GetValue dlg stream_good fr in
  res = (set_status_text "No project loaded!" fr, None)
  /\ m_stbar (fst res) = "No project loaded!"
  /\ m_mouse (fst res) = m_mouse fr
  /\ m_events (m_mouse (fst res)) = m_events (m_mouse fr)
  /\ m_canvas (fst res) = m_canvas fr
  /\ m_scene_print (fst res) = m_scene_print fr
  /\ m_ui_job (fst res) = None.
Proof.
  intros H. cbv zeta. unfold record_btn_handler. rewrite H. simpl.
  repeat split; auto.
Qed.

End FrameProperties.

Lemma non_positive_convexity_witness :
  let fr : MyFrame (Z * nat) unit :=
    {| m_scene_print := None; m_canvas := (5, O); m_stbar := "";
       m_mouse := Recorder_init; m_ui_job := None |} in
  convexity_spin_handler fst (fun s c => (s, S (snd c))) (fun c _ => c) 0 fr
  = fr.
Proof.
  exact (proj1 (non_positive_convexity_rejected
    (CSGSettings := Z) (Canvas := Z * nat) (SLAPrint := unit)
    fst (fun s c => (s, S (snd c))) (fun c _ => c) (fun s => s)
    {| m_scene_print := None; m_canvas := (5, O); m_stbar := "";
       m_mouse := Recorder_init; m_ui_job := None |}
    0 5 eq_refl eq_refl (Z.le_refl 0))).
Defined.

Lemma record_toggle_without_project_witness :
  let fr : MyFrame unit unit :=
    {| m_scene_print := None; m_canvas := tt; m_stbar := "";
       m_mouse := report (call_move_to 1 2) Recorder_init; m_ui_job := None |} in
  record_btn_handler (fun _ => true) (fun c => c) (fun c => c)
    true (Some "out.events") true fr
  = (set_status_text "No project loaded!" fr, None).
Proof.
  exact (proj1 (record_toggle_without_project
    (Canvas := unit) (SLAPrint := unit)
    (fun _ => true) (fun c => c) (fun c => c)
    true (Some "out.events") true
    {| m_scene_print := None; m_canvas := tt; m_stbar := "";
       m_mouse := report (call_move_to 1 2) Recorder_init; m_ui_job := None |}
    eq_refl)).
Defined.

(** ** The load job *)

Section JobProperties.

Context {Canvas Model SLAPrint : Type}.
Context (read_from_file : string -> failure + Model)
        (new_print : SLAPrint)
        (print_apply : Model -> SLAPrint -> SLAPrint * option failure)
        (print_set_task : SLAPrint -> SLAPrint)
        (print_process :
           SLAPrint -> list SlicingStatus * SLAPrint * option failure).

(** C6 (what the code does). Only [m_print->process()] stands inside the
    [try] of [SLAJob::process], and the handler catches [std::exception]
    only.  A failure raised by reading the model or by applying the
    configuration leaves [process] without any status report, and so does
    a slicing failure that is not a [std::exception]; a [std::exception]
    raised by slicing is the one failure that [process] turns into a
    report of percent 0 with a text that is not empty, after which it
    returns normally. *)
Theorem process_reports_slicing_exception_only
  (job : SLAJob SLAPrint) (f : failure) :
  let run := process read_from_file new_print print_apply print_set_task
               print_process in
  (read_from_file (m_fname job) = inl f ->
     run job = (job, [], Some f))
  /\ (forall model pr,
        read_from_file (m_fname job) = inr model ->
        print_apply model new_print = (pr, Some f) ->
        run job = ({| m_fname := m_fname job; m_print := Some pr |},
                   [], Some f))
  /\ (forall model pr statuses pr',
        read_from_file (m_fname job) = inr model ->
        print_apply model new_print = (pr, None) ->
        print_process (print_set_task pr)
          = (statuses, pr', Some other_exception) ->
        run job = ({| m_fname := m_fname job; m_print := Some pr' |},
                   statuses, Some other_exception))
  /\ (forall model pr statuses pr' what,
        read_from_file (m_fname job) = inr model ->
        print_apply model new_print = (pr, None) ->
        print_process (print_set_task pr)
          = (statuses, pr', Some (std_exception what)) ->
        run job = ({| m_fname := m_fname job; m_print := Some pr' |},
                   statuses ++
                   [{| percent := 0;
                       text := ("Exception during processing: "
                                ++ what)%string |}],
                   None)
        /\ ("Exception during processing: " ++ what)%string <> EmptyString).
Proof.
  cbv zeta. unfold process. split; [|split; [|split]].
  - intros ->. reflexivity.
  - intros model pr -> ->. reflexivity.
  - intros model pr statuses pr' -> -> ->. reflexivity.
  - intros model pr statuses pr' what -> -> ->.
    split; [reflexivity | discriminate].
Qed.

End JobProperties.

(** ** Text *)

Lemma string_app_assoc (s1 s2 s3 : string) :
  ((s1 ++ s2) ++ s3 = s1 ++ (s2 ++ s3))%string.
Proof. induction s1 as [|c s1 IH]; simpl; [reflexivity | now rewrite IH]. Qed.

Lemma string_app_nil_r (t : string) : (t ++ "")%string = t.
Proof. induction t as [|c t IH]; simpl; [reflexivity | now rewrite IH]. Qed.

Lemma string_length_app (s1 s2 : string) :
  String.length (s1 ++ s2) = (String.length s1 + String.length s2)%nat.
Proof. induction s1 as [|c s1 IH]; simpl; [reflexivity | now rewrite IH]. Qed.

(** ** The text that save writes *)

Lemma save_event_appends (evt : Event) (os : ostream) :
  save_event evt os = (os ++ event_line evt)%string.
Proof.
  unfold save_event, event_line, endl, put_int, put_str.
  now rewrite !string_app_assoc.
Qed.

Lemma save_events_append (evts : list Event) :
  forall os,
    fold_left (fun os evt => save_event evt os) evts os =
    (os ++ event_lines evts)%string.
Proof.
  induction evts as [|evt rest IH]; intros os; simpl.
  - now rewrite string_app_nil_r.
  - now rewrite IH, save_event_appends, string_app_assoc.
Qed.

(** C8. [save] appends to the stream one line per logged event, in log
    order, made of the kind, the first and the second parameter in decimal
    separated by single spaces; the kind of a recorded event is the
    position of its enumerator in
    LCLK_U, RCLK_U, LCLK_D, RCLK_D, DDCLK, SCRL, MV, counted from 0. *)
Theorem save_writes_one_line_per_event :
  (forall r os, save r os = (os ++ event_lines (m_events r))%string)
  /\ event_lines [] = EmptyString
  /\ (forall evt rest,
        event_lines (evt :: rest) =
        (show_int (type evt) ++ " " ++ show_int (a evt) ++ " "
         ++ show_int (b evt) ++ String endl_char (event_lines rest))%string)
  /\ (forall t x y,
        type (Event_ctor t x y) = EEvents_value t
        /\ a (Event_ctor t x y) = x /\ b (Event_ctor t x y) = y)
  /\ map EEvents_value [LCLK_U; RCLK_U; LCLK_D; RCLK_D; DDCLK; SCRL; MV]
     = [0; 1; 2; 3; 4; 5; 6]
  /\ save (live [call_move_to 10 20; call_scroll (-120) 120 waVertical;
                 call_left_click_down; call_left_click_up]
                (record true Recorder_init)) EmptyString
     = (String.concat (String endl_char EmptyString)
          ["6 10 20"; "5 -120 120"; "2 0 0"; "0 0 0"; ""])%string.
Proof.
  split; [|split; [|split; [|split; [|split]]]]; try reflexivity.
  - intros r os. apply save_events_append.
  - intros evt rest. simpl. unfold event_line.
    now rewrite !string_app_assoc.
  - intros t x y. repeat split.
Qed.

(** ** Extraction never grows the unread text *)

Lemma skipws_length (t : string) :
  (String.length (skipws t) <= String.length t)%nat.
Proof.
  induction t as [|c t IH]; simpl; [lia|].
  destruct (isspace c); simpl; lia.
Qed.

Lemma get_digits_length (t : string) :
  forall acc, (String.length (snd (get_digits t acc)) <= String.length t)%nat.
Proof.
  induction t as [|c t IH]; intros acc; simpl; [lia|].
  destruct (isdigit c); simpl; [|lia].
  specialize (IH (acc * 10 + digit_val c)). lia.
Qed.

Lemma get_digits_shrinks (t : string) (acc : Z) :
  starts_with_digit t = true ->
  (String.length (snd (get_digits t acc)) < String.length t)%nat.
Proof.
  destruct t as [|c t]; simpl; [discriminate|].
  intros ->. pose proof (get_digits_length t (acc * 10 + digit_val c)). lia.
Qed.

Lemma read_sign_length (t : string) :
  (String.length (snd (read_sign t)) <= String.length t)%nat.
Proof.
  destruct t as [|c t]; simpl; [lia|].
  destruct (c =? "-")%char; [simpl; lia|].
  destruct (c =? "+")%char; simpl; lia.
Qed.

Lemma num_get_length (lo hi : Z) (t : string) :
  (String.length (snd (num_get lo hi t)) <= String.length t)%nat
  /\ (snd (fst (num_get lo hi t)) = false ->
      (String.length (snd (num_get lo hi t)) < String.length t)%nat).
Proof.
  unfold num_get. pose proof (read_sign_length t) as Hs.
  destruct (read_sign t) as [neg t1]. simpl in Hs.
  destruct (starts_with_digit t1) eqn:Hd.
  - pose proof (get_digits_shrinks t1 0 Hd) as Hg.
    destruct (get_digits t1 0) as [n rest]. simpl in Hg.
    destruct ((if neg then - n else n) <? lo); simpl; [lia|].
    destruct (hi <? (if neg then - n else n)); simpl; lia.
  - simpl. split; [lia | discriminate].
Qed.

Lemma extract_length (lo hi : Z) (s : istream) (old : Z) :
  (String.length (buf (fst (extract lo hi s old))) <= String.length (buf s))%nat
  /\ (good (fst (extract lo hi s old)) = true ->
      (String.length (buf (fst (extract lo hi s old)))
       < String.length (buf s))%nat).
Proof.
  unfold extract, sentry. destruct (good s) eqn:Hg.
  - pose proof (skipws_length (buf s)) as Hw.
    destruct (skipws (buf s)) as [|c t] eqn:E.
    + simpl. split; [lia | discriminate].
    + cbv beta iota. cbn [buf eofbit failbit].
      destruct (num_get_length lo hi (String c t)) as [H1 H2].
      destruct (num_get lo hi (String c t)) as [[v fail] rest].
      cbn [fst snd buf] in *. split; [lia|].
      unfold good; cbn [eofbit failbit]. intros Hgood.
      destruct fail; [|specialize (H2 eq_refl); lia].
      rewrite orb_true_r, andb_false_r in Hgood. discriminate.
  - simpl. split; [lia|]. unfold good; simpl.
    rewrite andb_false_r. discriminate.
Qed.

Lemma load_body_shrinks (ind : Indeterminate) (s : istream) (evs : list Event) :
  (String.length (buf (fst (load_body ind s evs))) <= String.length (buf s))%nat
  /\ (good (fst (load_body ind s evs)) = true ->
      (String.length (buf (fst (load_body ind s evs)))
       < String.length (buf s))%nat)
  /\ exists evt, snd (load_body ind s evs) = evs ++ [evt].
Proof.
  unfold load_body, extract_int, extract_long. cbv zeta.
  set (locals := ind (List.length evs)).
  destruct (extract_length INT_MIN INT_MAX s (type0 locals)) as [H1 _].
  destruct (extract INT_MIN INT_MAX s (type0 locals)) as [s1 ty].
  destruct (extract_length LONG_MIN LONG_MAX s1 (a0 locals)) as [H2 _].
  destruct (extract LONG_MIN LONG_MAX s1 (a0 locals)) as [s2 x].
  destruct (extract_length LONG_MIN LONG_MAX s2 (b0 locals)) as [H3 H4].
  destruct (extract LONG_MIN LONG_MAX s2 (b0 locals)) as [s3 y].
  cbn [fst snd] in *. split; [lia|]. split; [intros Hg; specialize (H4 Hg); lia|].
  eexists; reflexivity.
Qed.

(** The loop of [load] ends within [load_fuel] turns, on every stream. *)
Lemma load_loop_enough (fuel : nat) :
  forall ind s evs,
    (String.length (buf s) + 2 <= fuel)%nat ->
    exists res, load_loop fuel ind s evs = Some res.
Proof.
  induction fuel as [|fuel IH]; intros ind s evs Hf; [lia|].
  simpl. destruct (good s) eqn:Hg; [|eexists; reflexivity].
  destruct (load_body_shrinks ind s evs) as (Hle & Hlt & _).
  destruct (load_body ind s evs) as [s' evs']. cbn [fst] in *.
  destruct (good s') eqn:Hg'.
  - apply IH. specialize (Hlt eq_refl). lia.
  - destruct fuel as [|fuel']; [lia|]. simpl. rewrite Hg'.
    eexists; reflexivity.
Qed.

Lemma load_total (ind : Indeterminate) (s : istream) (r : RecorderMouseInput) :
  exists s' evs,
    load ind s r = Some (s', set_events evs r).
Proof.
  unfold load.
  destruct (load_loop_enough (load_fuel s) ind s [])
    as [[s' evs] H]; [unfold load_fuel; lia|].
  cbn [m_events set_events]. rewrite H. exists s', evs.
  reflexivity.
Qed.

(** Every turn of the loop appends an event: a loop entered on a good
    stream leaves at least one. *)
Lemma load_loop_grows (fuel : nat) :
  forall ind s evs s' evs',
    load_loop fuel ind s evs = Some (s', evs') ->
    exists more, evs' = evs ++ more /\ (good s = true -> more <> []).
Proof.
  induction fuel as [|fuel IH]; intros ind s evs s' evs'; simpl; [discriminate|].
  destruct (good s) eqn:Hg.
  - destruct (load_body_shrinks ind s evs) as (_ & _ & evt & Hevt).
    destruct (load_body ind s evs) as [s1 evs1]. cbn [snd] in Hevt. subst evs1.
    intros H. apply IH in H. destruct H as (more & -> & _).
    exists (evt :: more). rewrite <- app_assoc. split; [reflexivity|].
    intros _. discriminate.
  - intros [= <- <-]. exists []. rewrite app_nil_r. split; [reflexivity|].
    discriminate.
Qed.

(** ** Reading back a number that was written *)

Lemma get_digits_stop (rest : string) (acc : Z) :
  starts_with_digit rest = false -> get_digits rest acc = (acc, rest).
Proof. destruct rest as [|c t]; simpl; [reflexivity | now intros ->]. Qed.

Lemma get_digits_uint (d : uint) :
  forall rest acc,
    starts_with_digit rest = false ->
    get_digits (NilEmpty.string_of_uint d ++ rest) acc = (uint_acc d acc, rest).
Proof.
  induction d as [|d IH|d IH|d IH|d IH|d IH|d IH|d IH|d IH|d IH|d IH];
    intros rest acc Hrest;
    [ now apply get_digits_stop
    | cbn [NilEmpty.string_of_uint append get_digits uint_acc];
      change (isdigit _) with true; cbv iota;
      now rewrite IH .. ].
Qed.

Lemma uint_acc_pos (d : uint) :
  forall p, uint_acc d (Z.pos p) = Z.pos (Pos.of_uint_acc d p).
Proof.
  induction d; intros p; cbn [uint_acc Pos.of_uint_acc];
    [ reflexivity | rewrite <- IHd; f_equal; lia .. ].
Qed.

Lemma uint_acc_zero (d : uint) : uint_acc d 0 = Z.of_uint d.
Proof.
  unfold Z.of_uint.
  induction d; cbn [uint_acc Pos.of_uint];
    [ reflexivity | exact IHd
    | change (0 * 10 + _) with (Z.pos 1) || idtac .. ].
  all: try (match goal with
            | |- uint_acc _ ?k = _ =>
                let k' := eval compute in k in change k with k'
            end; rewrite uint_acc_pos; reflexivity).
Qed.

Lemma isdigit_no_sign (c : ascii) :
  isdigit c = true ->
  (c =? "-")%char = false /\ (c =? "+")%char = false /\ isspace c = false.
Proof.
  unfold isdigit, isspace. intros H.
  apply andb_prop in H. destruct H as [H1 H2].
  apply N.leb_le in H1. apply N.leb_le in H2.
  repeat split.
  - apply Ascii.eqb_neq. intros ->. compute in H1. now apply H1.
  - apply Ascii.eqb_neq. intros ->. compute in H1. now apply H1.
  - apply orb_false_iff. split.
    + apply N.eqb_neq. lia.
    + apply andb_false_iff. right. apply N.leb_gt. lia.
Qed.

(** A number that is not [Nil] is written with a digit in front. *)
Lemma string_of_uint_head (d : uint) (rest : string) :
  d <> Nil ->
  starts_with_digit (NilEmpty.string_of_uint d ++ rest) = true.
Proof. destruct d; intros H; [now elim H | reflexivity ..]. Qed.

Lemma read_sign_digit (t : string) :
  starts_with_digit t = true -> read_sign t = (false, t).
Proof.
  destruct t as [|c t]; simpl; [discriminate|]. intros H.
  destruct (isdigit_no_sign c H) as (-> & -> & _). reflexivity.
Qed.

Lemma to_uint_value (p : positive) : uint_acc (Pos.to_uint p) 0 = Z.pos p.
Proof.
  rewrite uint_acc_zero. unfold Z.of_uint.
  now rewrite DecimalPos.Unsigned.of_to.
Qed.

(** [num_get] reads back what [show_int] wrote, when something that is not
    a digit follows. *)
Lemma num_get_show_int (lo hi z : Z) (rest : string) :
  lo <= z <= hi ->
  starts_with_digit rest = false ->
  num_get lo hi (show_int z ++ rest) = (z, false, rest).
Proof.
  intros Hz Hrest. unfold num_get, show_int.
  assert (Hclamp : forall v, lo <= v <= hi ->
            (if v <? lo then (lo, true, rest)
             else if hi <? v then (hi, true, rest)
             else (v, false, rest)) = (v, false, rest)).
  { intros v Hv. destruct (Z.ltb_spec v lo); [lia|].
    destruct (Z.ltb_spec hi v); [lia | reflexivity]. }
  destruct z as [|p|p].
  - cbn [Z.to_int NilEmpty.string_of_int].
    change (NilEmpty.string_of_uint zero) with "0".
    cbn [append read_sign]. change ("0" =? "-")%char with false.
    change ("0" =? "+")%char with false. cbv iota.
    cbn [starts_with_digit]. change (isdigit "0") with true. cbv iota.
    change (get_digits (String "0" rest) 0) with (get_digits rest 0).
    rewrite (get_digits_stop rest 0 Hrest). apply Hclamp. exact Hz.
  - cbn [Z.to_int NilEmpty.string_of_int].
    pose proof (string_of_uint_head (Pos.to_uint p) rest
                  (DecimalPos.Unsigned.to_uint_nonnil p)) as Hd.
    rewrite (read_sign_digit _ Hd), Hd.
    rewrite (get_digits_uint _ rest 0 Hrest), to_uint_value.
    apply Hclamp. exact Hz.
  - cbn [Z.to_int NilEmpty.string_of_int append read_sign].
    change ("-" =? "-")%char with true. cbv iota.
    pose proof (string_of_uint_head (Pos.to_uint p) rest
                  (DecimalPos.Unsigned.to_uint_nonnil p)) as Hd.
    rewrite Hd, (get_digits_uint _ rest 0 Hrest), to_uint_value.
    apply Hclamp. exact Hz.
Qed.

Lemma skipws_all_space (ws t : string) :
  all_space ws = true -> skipws (ws ++ t) = skipws t.
Proof.
  induction ws as [|c ws IH]; simpl; [reflexivity|].
  intros H. apply andb_prop in H. destruct H as [-> H]. now apply IH.
Qed.

(** What [show_int] writes starts with a minus sign or a digit, not with
    white space. *)
Lemma skipws_show_int (z : Z) (rest : string) :
  skipws (show_int z ++ rest) = (show_int z ++ rest)%string
  /\ (show_int z ++ rest)%string <> EmptyString.
Proof.
  unfold show_int. destruct z as [|p|p]; cbn [Z.to_int NilEmpty.string_of_int].
  - split; [reflexivity | discriminate].
  - pose proof (string_of_uint_head (Pos.to_uint p) rest
                  (DecimalPos.Unsigned.to_uint_nonnil p)) as Hd.
    destruct (NilEmpty.string_of_uint (Pos.to_uint p) ++ rest)%string
      as [|c t]; [discriminate|].
    simpl in Hd. destruct (isdigit_no_sign c Hd) as (_ & _ & Hs).
    simpl. rewrite Hs. split; [reflexivity | discriminate].
  - split; [reflexivity | discriminate].
Qed.

(** [stream >> x] on a good stream that holds, after white space, a number
    written by [show_int] and then something that is not a digit. *)
Lemma extract_show_int (lo hi z old : Z) (ws rest : string) :
  lo <= z <= hi ->
  all_space ws = true ->
  starts_with_digit rest = false ->
  rest <> EmptyString ->
  extract lo hi (istream_of (ws ++ show_int z ++ rest)) old
  = (istream_of rest, z).
Proof.
  intros Hz Hws Hrest Hne. unfold extract, sentry, istream_of, good.
  cbn [buf eofbit failbit negb andb].
  rewrite (skipws_all_space ws _ Hws).
  destruct (skipws_show_int z rest) as [-> Hnonempty].
  destruct (show_int z ++ rest)%string as [|c t] eqn:E; [now elim Hnonempty|].
  rewrite <- E. cbn [buf eofbit failbit].
  rewrite (num_get_show_int lo hi z rest Hz Hrest).
  destruct rest; [now elim Hne | reflexivity].
Qed.

(** ** Loading what save wrote *)

Lemma Event_in_range_bounds (evt : Event) :
  Event_in_range evt = true ->
  INT_MIN <= type evt <= INT_MAX
  /\ LONG_MIN <= a evt <= LONG_MAX
  /\ LONG_MIN <= b evt <= LONG_MAX.
Proof.
  unfold Event_in_range. rewrite !andb_true_iff, !Z.leb_le. tauto.
Qed.

(** One turn of the loop on the line of an event: the event is read back
    and the stream stays good, in front of the end of the line. *)
Lemma load_body_line (ind : Indeterminate) (evt : Event) (ws more : string)
  (evs : list Event) :
  Event_in_range evt = true ->
  all_space ws = true ->
  load_body ind (istream_of (ws ++ event_line evt ++ more)) evs
  = (istream_of (String endl_char more), evs ++ [evt]).
Proof.
  intros Hr Hws. apply Event_in_range_bounds in Hr.
  destruct Hr as (Ht & Ha & Hb).
  unfold load_body, extract_int, extract_long, event_line. cbv zeta.
  rewrite !string_app_assoc.
  rewrite (extract_show_int INT_MIN INT_MAX (type evt) _ ws _ Ht Hws);
    [|reflexivity|discriminate].
  change (" " ++ show_int (a evt) ++ ?k)%string
    with (" " ++ (show_int (a evt) ++ k))%string.
  rewrite (extract_show_int LONG_MIN LONG_MAX (a evt) _ " " _ Ha);
    [|reflexivity|reflexivity|discriminate].
  rewrite (extract_show_int LONG_MIN LONG_MAX (b evt) _ " " _ Hb);
    [|reflexivity|reflexivity|discriminate].
  destruct evt; reflexivity.
Qed.

(** The turn on a stream that holds nothing but white space: the three
    extractions stop at the sentry, and the locals are appended as they
    are. *)
Lemma load_body_at_end (ind : Indeterminate) (ws : string) (evs : list Event) :
  all_space ws = true ->
  load_body ind (istream_of ws) evs
  = ({| buf := EmptyString; eofbit := true; failbit := true |},
     evs ++ [indeterminate_event ind (List.length evs)]).
Proof.
  intros Hws.
  assert (Hskip : skipws ws = EmptyString).
  { rewrite <- (string_app_nil_r ws). now rewrite skipws_all_space. }
  unfold load_body, indeterminate_event, extract_int, extract_long. cbv zeta.
  unfold extract at 1. unfold sentry, istream_of, good.
  cbn [buf eofbit failbit negb andb]. rewrite Hskip. reflexivity.
Qed.

Lemma load_loop_lines (evts : list Event) :
  forall fuel ind ws acc,
    forallb Event_in_range evts = true ->
    all_space ws = true ->
    (List.length evts + 2 <= fuel)%nat ->
    load_loop fuel ind (istream_of (ws ++ event_lines evts)) acc
    = Some ({| buf := EmptyString; eofbit := true; failbit := true |},
            acc ++ evts
            ++ [indeterminate_event ind (List.length (acc ++ evts))]).
Proof.
  induction evts as [|evt rest IH]; intros fuel ind ws acc Hr Hws Hf.
  - destruct fuel as [|[|fuel]]; [simpl in Hf; lia ..|].
    cbn [event_lines fold_right]. rewrite string_app_nil_r.
    cbn [load_loop]. change (good (istream_of ws)) with true. cbv iota.
    rewrite (load_body_at_end ind ws acc Hws).
    change (good {| buf := ""; eofbit := true; failbit := true |}) with false.
    cbv iota. now rewrite !app_nil_r.
  - destruct fuel as [|fuel]; [simpl in Hf; lia|].
    cbn [forallb] in Hr. apply andb_prop in Hr. destruct Hr as [Hevt Hrest].
    cbn [event_lines fold_right load_loop].
    change (good (istream_of _)) with true. cbv iota.
    change (fold_right _ EmptyString rest) with (event_lines rest).
    rewrite (load_body_line ind evt ws (event_lines rest) acc Hevt Hws).
    change (String endl_char (event_lines rest))
      with (String endl_char EmptyString ++ event_lines rest)%string.
    rewrite (IH fuel ind (String endl_char EmptyString) (acc ++ [evt])
               Hrest eq_refl);
      [|simpl in Hf; lia].
    now rewrite <- !app_assoc.
Qed.

Lemma event_lines_length (evts : list Event) :
  (List.length evts <= String.length (event_lines evts))%nat.
Proof.
  induction evts as [|evt rest IH]; simpl; [lia|].
  rewrite string_length_app. unfold event_line.
  rewrite !string_length_app. simpl. lia.
Qed.

(** C3 (what the code does). Loading the text that [save] wrote for a log
    of N events gives back those N events, in order, followed by one more
    event that was never recorded: its kind and parameters are the
    uninitialised locals of the loop's last turn.  The loaded log has N+1
    events and is never the log that was saved. *)
Theorem load_after_save_has_one_more_event
  (ind : Indeterminate) (r r0 : RecorderMouseInput) :
  forallb Event_in_range (m_events r) = true ->
  exists s' r',
    load ind (istream_of (save r EmptyString)) r0 = Some (s', r')
    /\ m_events r' =
         m_events r
         ++ [indeterminate_event ind (List.length (m_events r))]
    /\ List.length (m_events r') = S (List.length (m_events r))
    /\ m_events r' <> m_events r.
Proof.
  intros Hr.
  unfold save. rewrite save_events_append. cbn [append]. unfold load.
  change (event_lines (m_events r))
    with (EmptyString ++ event_lines (m_events r))%string.
  rewrite (load_loop_lines (m_events r) _ ind EmptyString [] Hr eq_refl).
  - cbn [app]. eexists _, _. split; [reflexivity|].
    cbn [m_events set_events app]. split; [reflexivity|].
    split; [rewrite !length_app; simpl; lia|].
    intros H. apply (f_equal (@List.length Event)) in H.
    rewrite !length_app in H. simpl in H. lia.
  - unfold load_fuel, istream_of. cbn [buf append].
    pose proof (event_lines_length (m_events r)). lia.
Qed.

Lemma load_after_save_witness :
  exists s' r',
    load (fun _ => {| type0 := 0; a0 := 0; b0 := 0 |})
      (istream_of (save (live [call_move_to 10 20] (record true Recorder_init))
                        EmptyString))
      Recorder_init = Some (s', r')
    /\ m_events r' =
         m_events (live [call_move_to 10 20] (record true Recorder_init))
         ++ [indeterminate_event (fun _ => {| type0 := 0; a0 := 0; b0 := 0 |})
               (List.length
                  (m_events (live [call_move_to 10 20]
                                  (record true Recorder_init))))]
    /\ List.length (m_events r') =
         S (List.length
              (m_events (live [call_move_to 10 20] (record true Recorder_init))))
    /\ m_events r' <>
         m_events (live [call_move_to 10 20] (record true Recorder_init)).
Proof.
  exact (load_after_save_has_one_more_event (fun _ => {| type0 := 0; a0 := 0; b0 := 0 |})
           (live [call_move_to 10 20] (record true Recorder_init))
           Recorder_init eq_refl).
Defined.

(** ** Loading a log that ends early *)

(** C4 (what the code does). [load] always returns, raising nothing, and
    keeps the events of the complete records; but the turn of the loop in
    which an extraction fails appends an event all the same.  A record cut
    short after two numbers becomes an event whose second parameter is the
    uninitialised local; after a token that is not a number the parameter
    it stood for is 0; at the end of the text, and on an empty stream, an
    event made of the three uninitialised locals is appended. *)
Theorem load_appends_event_for_incomplete_record :
  (forall ind s r, exists s' evs, load ind s r = Some (s', set_events evs r))
  /\ (forall ind s r s' r',
        good s = true -> load ind s r = Some (s', r') -> m_events r' <> [])
  /\ (forall ind r, exists s',
        load ind (istream_of ("6 10 20" ++ String endl_char "5 3")) r =
        Some (s', set_events
                    [ {| type := 6; a := 10; b := 20 |};
                      {| type := 5; a := 3; b := b0 (ind 1%nat) |} ] r))
  /\ (forall ind r, exists s',
        load ind (istream_of ("6 10 20" ++ String endl_char "5 x 7")) r =
        Some (s', set_events
                    [ {| type := 6; a := 10; b := 20 |};
                      {| type := 5; a := 0; b := b0 (ind 1%nat) |} ] r))
  /\ (forall ind r, exists s',
        load ind (istream_of ("6 10 20" ++ String endl_char EmptyString)) r =
        Some (s', set_events
                    [ {| type := 6; a := 10; b := 20 |};
                      indeterminate_event ind 1 ] r))
  /\ (forall ind r, exists s',
        load ind (istream_of EmptyString) r =
        Some (s', set_events [indeterminate_event ind 0] r)).
Proof.
  split; [exact load_total|]. split.
  { intros ind s r s' r' Hg. unfold load.
    destruct (load_loop (load_fuel s) ind s (m_events (set_events [] r)))
      as [[s1 evs]|] eqn:E; [|discriminate].
    intros [= _ <-]. apply load_loop_grows in E.
    destruct E as (more & -> & Hmore). cbn [m_events set_events app].
    now apply Hmore. }
  repeat split; intros ind r; vm_compute; eexists; reflexivity.
Qed.

(** ** Runs of calls and of canvas events *)

Lemma live_effect (cs : list Call) :
  forall r,
    m_events (live cs r) =
      (if m_recording r then m_events r ++ map event_of_call cs
       else m_events r)
    /\ dispatched (base (live cs r)) =
         (if m_playing r then dispatched (base r)
          else dispatched (base r) ++ cs)
    /\ m_recording (live cs r) = m_recording r
    /\ m_playing (live cs r) = m_playing r.
Proof.
  induction cs as [|c cs IH]; intros r.
  - simpl. destruct (m_recording r), (m_playing r);
      rewrite ?app_nil_r; auto.
  - change (live (c :: cs) r) with (live cs (report c r)).
    destruct (IH (report c r)) as (H1 & H2 & H3 & H4).
    destruct (report_effect c r) as (Hev & Hdisp).
    rewrite H1, H2, H3, H4, Hev, Hdisp, report_recording, report_playing.
    destruct (m_recording r), (m_playing r); simpl;
      rewrite <- ?app_assoc; auto.
Qed.

(** X1. Whatever the two flags are, a run of calls is logged in arrival
    order exactly when the recorder is recording, and handed on to the
    wrapped dispatcher in arrival order exactly when it is not playing;
    the flags stay as they were. *)
Theorem calls_logged_and_forwarded_in_order
  (cs : list Call) (r : RecorderMouseInput) :
  m_events (live cs r) =
    (if m_recording r then m_events r ++ map event_of_call cs
     else m_events r)
  /\ dispatched (base (live cs r)) =
       (if m_playing r then dispatched (base r)
        else dispatched (base r) ++ cs)
  /\ m_recording (live cs r) = m_recording r
  /\ m_playing (live cs r) = m_playing r.
Proof. apply live_effect. Qed.

Lemma is_named_range (evt : Event) :
  is_named evt = true <-> 0 <= type evt <= 6.
Proof.
  unfold is_named. destruct (type evt) as [|p|p].
  - simpl. split; [lia | reflexivity].
  - destruct p as [[[p|p|]|[p|p|]|]|[[p|p|]|[p|p|]|]|]; simpl;
      split; intros H; try reflexivity; try discriminate; lia.
  - simpl. split; [discriminate | lia].
Qed.

Lemma replay_single (evt : Event) :
  (is_named evt = true /\ exists c, replay_calls [evt] = [c])
  \/ (is_named evt = false /\ replay_calls [evt] = []).
Proof.
  unfold is_named, replay_calls. cbn [flat_map].
  destruct (EEvents_named (type evt)) as [[]|];
    [left; split; [reflexivity | eexists; reflexivity] .. | right; auto].
Qed.

Lemma replay_calls_named (evts : list Event) :
  replay_calls (filter is_named evts) = replay_calls evts
  /\ List.length (replay_calls evts) = List.length (filter is_named evts).
Proof.
  induction evts as [|evt rest [IH1 IH2]]; [split; reflexivity|].
  rewrite (replay_calls_cons evt rest). cbn [filter].
  destruct (replay_single evt) as [(-> & c & Hc) | (-> & Hc)]; rewrite Hc.
  - rewrite (replay_calls_cons evt (filter is_named rest)), Hc, IH1.
    cbn. now rewrite IH2.
  - cbn. auto.
Qed.

(** X2. [play] hands the dispatcher one call for each logged event whose
    kind is one of the seven enumerators (0 to 6) and nothing for an event
    of any other kind: the [switch] has no [default].  Dropping those
    events from the log does not change what is replayed. *)
Theorem play_skips_unnamed_kinds (r : RecorderMouseInput) :
  List.length (dispatched (base (play r))) =
    (List.length (dispatched (base r))
     + List.length (filter is_named (m_events r)))%nat
  /\ dispatched (base (play (set_events (filter is_named (m_events r)) r))) =
       dispatched (base (play r))
  /\ (forall evt, is_named evt = true <-> 0 <= type evt <= 6)
  /\ (forall evt, is_named evt = false ->
        dispatched (base (play (emplace_back evt r))) =
        dispatched (base (play r))).
Proof.
  destruct (replay_calls_named (m_events r)) as [H1 H2].
  rewrite !play_dispatched. cbn [m_events set_events base].
  rewrite length_app, H1, H2.
  split; [reflexivity|]. split; [reflexivity|].
  split; [exact is_named_range|].
  intros evt Hn. rewrite play_dispatched.
  cbn [m_events emplace_back set_events base].
  rewrite replay_calls_app.
  destruct (replay_single evt) as [(Ht & _) | (_ & ->)];
    [congruence | now rewrite app_nil_r].
Qed.

(** ** Canvas events *)

Lemma canvas_event_call (evt : wxMouseEvent) (ms : RecorderMouseInput) :
  canvas_event evt ms =
  match canvas_call evt with Some c => report c ms | None => ms end.
Proof. destruct evt as [v d []| | | | | |]; reflexivity. Qed.

Lemma canvas_events_live (evts : list wxMouseEvent) :
  forall ms, canvas_events evts ms = live (canvas_calls evts) ms.
Proof.
  induction evts as [|evt rest IH]; intros ms; [reflexivity|].
  change (canvas_events (evt :: rest) ms)
    with (canvas_events rest (canvas_event evt ms)).
  rewrite IH, canvas_event_call. unfold canvas_calls. cbn [flat_map].
  destruct (canvas_call evt); reflexivity.
Qed.

Lemma canvas_calls_no_double_click (evts : list wxMouseEvent) :
  Forall (fun c => event_of_call c <> Event_ctor DDCLK 0 0
                   /\ c <> call_double_click) (canvas_calls evts).
Proof.
  induction evts as [|evt rest IH]; [constructor|].
  unfold canvas_calls. cbn [flat_map].
  destruct evt as [v d []| | | | | |]; cbn [canvas_call app];
    try constructor; try exact IH; split; discriminate.
Qed.

(** X3. The canvas binds handlers for the wheel, motion and the two
    buttons only: whatever events arrive, the recorder is never asked for
    a double click.  The dispatcher gets no double-click call from canvas
    events, and a log recorded from them holds no event of kind DDCLK. *)
Theorem canvas_never_reports_double_click
  (evts : list wxMouseEvent) (r : RecorderMouseInput) :
  canvas_events evts r = live (canvas_calls evts) r
  /\ ~ In call_double_click (canvas_calls evts)
  /\ (forall evt, In evt (m_events (canvas_events evts (record true r))) ->
        type evt <> EEvents_value DDCLK)
  /\ (m_playing r = false ->
      dispatched (base (canvas_events evts r)) =
        dispatched (base r) ++ canvas_calls evts).
Proof.
  pose proof (canvas_calls_no_double_click evts) as Hno.
  rewrite Forall_forall in Hno.
  split; [apply canvas_events_live|]. split; [|split].
  - intros Hin. apply Hno in Hin. now destruct Hin.
  - intros evt. rewrite canvas_events_live.
    destruct (live_effect (canvas_calls evts) (record true r)) as (-> & _).
    cbn. rewrite in_map_iff. intros (c & <- & Hc).
    apply Hno in Hc. destruct Hc as [_ Hc].
    destruct c; try discriminate. now elim Hc.
  - intros Hp. rewrite canvas_events_live.
    destruct (live_effect (canvas_calls evts) r) as (_ & -> & _).
    now rewrite Hp.
Qed.

(** ** Loading a text that does not end in a line feed *)

Lemma load_loop_prefix (evts : list Event) :
  forall fuel ind ws more acc,
    forallb Event_in_range evts = true ->
    all_space ws = true ->
    exists ws',
      all_space ws' = true
      /\ load_loop (List.length evts + fuel) ind
           (istream_of (ws ++ event_lines evts ++ more)) acc
         = load_loop fuel ind (istream_of (ws' ++ more)) (acc ++ evts).
Proof.
  induction evts as [|evt rest IH]; intros fuel ind ws more acc Hr Hws.
  - exists ws. rewrite app_nil_r. auto.
  - cbn [forallb] in Hr. apply andb_prop in Hr. destruct Hr as [Hevt Hrest].
    cbn [List.length Nat.add load_loop event_lines fold_right].
    change (good (istream_of _)) with true. cbv iota.
    change (fold_right _ EmptyString rest) with (event_lines rest).
    rewrite string_app_assoc.
    rewrite (load_body_line ind evt ws (event_lines rest ++ more) acc Hevt Hws).
    change (String endl_char (event_lines rest ++ more))
      with (String endl_char EmptyString ++ event_lines rest ++ more)%string.
    destruct (IH fuel ind (String endl_char EmptyString) more (acc ++ [evt])
                Hrest eq_refl) as (ws' & Hws' & ->).
    exists ws'. now rewrite <- app_assoc.
Qed.

(** The log that [load] leaves for the lines of [evts] followed by a text
    [tail] on which one more turn of the loop ends the loading. *)
Lemma load_lines_then_last (ind : Indeterminate) (evts : list Event)
  (tail : string) (r0 : RecorderMouseInput) (s_end : istream)
  (last_of : nat -> Event) :
  forallb Event_in_range evts = true ->
  good s_end = false ->
  (forall ws acc, all_space ws = true ->
     load_body ind (istream_of (ws ++ tail)) acc
     = (s_end, acc ++ [last_of (List.length acc)])) ->
  load ind (istream_of (event_lines evts ++ tail)) r0
  = Some (s_end, set_events (evts ++ [last_of (List.length evts)]) r0).
Proof.
  intros Hr Hend Hlast. unfold load.
  pose proof (event_lines_length evts) as Hlen.
  assert (Hfuel : exists k,
            load_fuel (istream_of (event_lines evts ++ tail))
            = (List.length evts + S (S k))%nat).
  { unfold load_fuel, istream_of. cbn [buf]. rewrite string_length_app.
    exists (String.length (event_lines evts) - List.length evts
            + String.length tail)%nat. lia. }
  destruct Hfuel as [k ->]. cbn [m_events set_events].
  destruct (load_loop_prefix evts (S (S k)) ind EmptyString tail [] Hr eq_refl)
    as (ws' & Hws' & Heq).
  cbn [append] in Heq. rewrite Heq.
  cbn [load_loop]. change (good (istream_of _)) with true. cbv iota.
  change ([] ++ evts) with evts.
  rewrite (Hlast ws' evts Hws'). now rewrite Hend.
Qed.

Lemma extract_show_int_end (lo hi z old : Z) (ws : string) :
  lo <= z <= hi ->
  all_space ws = true ->
  extract lo hi (istream_of (ws ++ show_int z)) old
  = ({| buf := EmptyString; eofbit := true; failbit := false |}, z).
Proof.
  intros Hz Hws. unfold extract, sentry, istream_of, good.
  cbn [buf eofbit failbit negb andb].
  rewrite (skipws_all_space ws _ Hws).
  destruct (skipws_show_int z EmptyString) as [Hskip Hnonempty].
  rewrite string_app_nil_r in Hskip, Hnonempty. rewrite Hskip.
  destruct (show_int z) as [|c t] eqn:E; [now elim Hnonempty|].
  rewrite <- E. cbn [buf eofbit failbit].
  rewrite <- (string_app_nil_r (show_int z)).
  now rewrite (num_get_show_int lo hi z EmptyString Hz eq_refl).
Qed.

Lemma load_body_last_line (ind : Indeterminate) (evt : Event) (ws : string)
  (evs : list Event) :
  Event_in_range evt = true ->
  all_space ws = true ->
  load_body ind (istream_of (ws ++ event_text evt)) evs
  = ({| buf := EmptyString; eofbit := true; failbit := false |},
     evs ++ [evt]).
Proof.
  intros Hr Hws. apply Event_in_range_bounds in Hr.
  destruct Hr as (Ht & Ha & Hb).
  unfold load_body, extract_int, extract_long, event_text. cbv zeta.
  rewrite (extract_show_int INT_MIN INT_MAX (type evt) _ ws _ Ht Hws);
    [|reflexivity|discriminate].
  change (" " ++ show_int (a evt) ++ ?k)%string
    with (" " ++ (show_int (a evt) ++ k))%string.
  rewrite (extract_show_int LONG_MIN LONG_MAX (a evt) _ " " _ Ha);
    [|reflexivity|reflexivity|discriminate].
  rewrite (extract_show_int_end LONG_MIN LONG_MAX (b evt) _ " " Hb eq_refl).
  destruct evt; reflexivity.
Qed.

Lemma event_lines_snoc (evts : list Event) (evt : Event) :
  event_lines (evts ++ [evt])
  = (event_lines evts ++ event_text evt ++ String endl_char EmptyString)%string.
Proof.
  unfold event_lines.
  induction evts as [|e rest IH]; simpl app; simpl fold_right.
  - rewrite string_app_nil_r. unfold event_line, event_text. simpl append.
    repeat progress (rewrite ?string_app_assoc; simpl append). reflexivity.
  - now rewrite IH, string_app_assoc.
Qed.

(** X4. The text that [save] writes for a log, taken without its final
    line feed, is loaded back as exactly that log: the stream reaches its
    end while the last number is read, so the loop is not entered again.
    (With the line feed, one more event is appended.) *)
Theorem load_exact_without_final_line_feed
  (ind : Indeterminate) (evts : list Event) (evt : Event)
  (r r0 : RecorderMouseInput) :
  m_events r = evts ++ [evt] ->
  forallb Event_in_range (m_events r) = true ->
  save r EmptyString
  = (event_lines evts ++ event_text evt ++ String endl_char EmptyString)%string
  /\ exists s' r',
       load ind (istream_of (event_lines evts ++ event_text evt)) r0
       = Some (s', r')
       /\ m_events r' = m_events r
       /\ eofbit s' = true /\ failbit s' = false.
Proof.
  intros Hlog Hr. rewrite Hlog in Hr. rewrite forallb_app in Hr.
  apply andb_prop in Hr. destruct Hr as [Hevts Hevt].
  cbn [forallb] in Hevt. rewrite andb_true_r in Hevt.
  split.
  - unfold save. rewrite save_events_append, Hlog. cbn [append].
    apply event_lines_snoc.
  - eexists _, _. split.
    + apply (load_lines_then_last ind evts (event_text evt) r0
               {| buf := EmptyString; eofbit := true; failbit := false |}
               (fun _ => evt) Hevts eq_refl).
      intros ws acc Hws. now apply load_body_last_line.
    + cbn [m_events set_events eofbit failbit]. now rewrite Hlog.
Qed.

Lemma load_exact_witness :
  save (live [call_move_to 10 20; call_left_click_down]
             (record true Recorder_init)) EmptyString
  = (event_lines [Event_ctor MV 10 20] ++ event_text (Event_ctor LCLK_D 0 0)
     ++ String endl_char EmptyString)%string
  /\ exists s' r',
       load (fun _ => {| type0 := 7; a0 := 8; b0 := 9 |})
         (istream_of (event_lines [Event_ctor MV 10 20]
                      ++ event_text (Event_ctor LCLK_D 0 0)))
         Recorder_init
       = Some (s', r')
       /\ m_events r' =
            m_events (live [call_move_to 10 20; call_left_click_down]
                           (record true Recorder_init))
       /\ eofbit s' = true /\ failbit s' = false.
Proof.
  exact (load_exact_without_final_line_feed
           (fun _ => {| type0 := 7; a0 := 8; b0 := 9 |})
           [Event_ctor MV 10 20] (Event_ctor LCLK_D 0 0)
           (live [call_move_to 10 20; call_left_click_down]
                 (record true Recorder_init))
           Recorder_init eq_refl eq_refl).
Defined.

(** ** Loading a text with a token that is not a number, or too large *)

Lemma load_body_malformed_kind (ind : Indeterminate) (c : ascii)
  (ws tail : string) (evs : list Event) :
  isspace c = false -> isdigit c = false ->
  (c =? "-")%char = false -> (c =? "+")%char = false ->
  all_space ws = true ->
  load_body ind (istream_of (ws ++ String c tail)) evs
  = ({| buf := String c tail; eofbit := false; failbit := true |},
     evs ++ [{| type := 0; a := a0 (ind (List.length evs));
                b := b0 (ind (List.length evs)) |}]).
Proof.
  intros Hsp Hdig Hminus Hplus Hws.
  unfold load_body, extract_int, extract_long. cbv zeta.
  unfold extract at 1. unfold sentry, istream_of, good.
  cbn [buf eofbit failbit negb andb].
  rewrite (skipws_all_space ws _ Hws). cbn [skipws]. rewrite Hsp.
  cbn [buf eofbit failbit]. unfold num_get. cbn [read_sign].
  rewrite Hminus, Hplus. cbn [starts_with_digit]. rewrite Hdig.
  reflexivity.
Qed.

(** X5. A token that cannot start a number where a kind is expected ends
    the loading: the events of the lines before it are kept, everything
    from the token on stays unread, and one event is appended all the same,
    with kind 0 (which [play] replays as a left-button release) and the two
    uninitialised locals as parameters. *)
Theorem load_stops_at_token_that_is_no_number
  (ind : Indeterminate) (evts : list Event) (c : ascii) (tail : string)
  (r0 : RecorderMouseInput) :
  forallb Event_in_range evts = true ->
  isspace c = false -> isdigit c = false ->
  (c =? "-")%char = false -> (c =? "+")%char = false ->
  let appended :=
    {| type := 0; a := a0 (ind (List.length evts));
       b := b0 (ind (List.length evts)) |} in
  exists s' r',
    load ind (istream_of (event_lines evts ++ String c tail)) r0 = Some (s', r')
    /\ m_events r' = evts ++ [appended]
    /\ buf s' = String c tail
    /\ replay_calls [appended] = [call_left_click_up].
Proof.
  intros Hr Hsp Hdig Hminus Hplus. cbv zeta. eexists _, _. split.
  - apply (load_lines_then_last ind evts (String c tail) r0
             {| buf := String c tail; eofbit := false; failbit := true |}
             (fun n => {| type := 0; a := a0 (ind n); b := b0 (ind n) |})
             Hr eq_refl).
    intros ws acc Hws. now apply load_body_malformed_kind.
  - repeat split.
Qed.

Lemma load_stops_at_token_witness :
  exists s' r',
    load (fun _ => {| type0 := 7; a0 := 8; b0 := 9 |})
      (istream_of (event_lines [Event_ctor MV 10 20]
                   ++ String "x" " 1 2")) Recorder_init
    = Some (s', r')
    /\ m_events r' =
         [Event_ctor MV 10 20] ++ [{| type := 0; a := 8; b := 9 |}]
    /\ buf s' = String "x" " 1 2"
    /\ replay_calls [{| type := 0; a := 8; b := 9 |}] = [call_left_click_up].
Proof.
  exact (load_stops_at_token_that_is_no_number
           (fun _ => {| type0 := 7; a0 := 8; b0 := 9 |})
           [Event_ctor MV 10 20] "x" " 1 2" Recorder_init
           eq_refl eq_refl eq_refl eq_refl eq_refl).
Defined.

Lemma num_get_long_overflow (z : Z) (rest : string) :
  LONG_MAX < z ->
  starts_with_digit rest = false ->
  num_get LONG_MIN LONG_MAX (show_int z ++ rest) = (LONG_MAX, true, rest).
Proof.
  intros Hz Hrest. unfold num_get, show_int.
  destruct z as [|p|p]; try (unfold LONG_MAX in Hz; lia).
  cbn [Z.to_int NilEmpty.string_of_int].
  pose proof (string_of_uint_head (Pos.to_uint p) rest
                (DecimalPos.Unsigned.to_uint_nonnil p)) as Hd.
  rewrite (read_sign_digit _ Hd), Hd.
  rewrite (get_digits_uint _ rest 0 Hrest), to_uint_value.
  destruct (Z.ltb_spec (Z.pos p) LONG_MIN); [unfold LONG_MIN in *; lia|].
  destruct (Z.ltb_spec LONG_MAX (Z.pos p)); [reflexivity | lia].
Qed.

Lemma load_body_overflow (ind : Indeterminate) (t z : Z) (ws tail : string)
  (evs : list Event) :
  INT_MIN <= t <= INT_MAX ->
  LONG_MAX < z ->
  starts_with_digit tail = false ->
  all_space ws = true ->
  load_body ind
    (istream_of (ws ++ show_int t ++ " " ++ show_int z ++ tail)) evs
  = ({| buf := tail; eofbit := at_end tail; failbit := true |},
     evs ++ [{| type := t; a := LONG_MAX;
                b := b0 (ind (List.length evs)) |}]).
Proof.
  intros Ht Hz Htail Hws.
  unfold load_body, extract_int, extract_long. cbv zeta.
  rewrite (extract_show_int INT_MIN INT_MAX t _ ws _ Ht Hws);
    [|reflexivity|discriminate].
  unfold extract at 1. unfold sentry, istream_of, good.
  cbn [buf eofbit failbit negb andb].
  change (" " ++ show_int z ++ tail)%string
    with (" " ++ (show_int z ++ tail))%string.
  rewrite (skipws_all_space " " _ eq_refl).
  destruct (skipws_show_int z tail) as [-> Hnonempty].
  destruct (show_int z ++ tail)%string as [|c0 t0] eqn:E;
    [now elim Hnonempty|].
  rewrite <- E. cbn [buf eofbit failbit].
  rewrite (num_get_long_overflow z tail Hz Htail).
  unfold extract, sentry, good. cbn [buf eofbit failbit orb].
  rewrite andb_false_r. reflexivity.
Qed.

(** X6. A first parameter beyond the largest [long] is read as the
    largest [long] and ends the loading: the event is appended with that
    value and with the uninitialised local as its second parameter, and
    what follows the number stays unread. *)
Theorem load_clamps_parameter_too_large
  (ind : Indeterminate) (evts : list Event) (t z : Z) (tail : string)
  (r0 : RecorderMouseInput) :
  forallb Event_in_range evts = true ->
  INT_MIN <= t <= INT_MAX ->
  LONG_MAX < z ->
  starts_with_digit tail = false ->
  exists s' r',
    load ind
      (istream_of (event_lines evts
                   ++ show_int t ++ " " ++ show_int z ++ tail)) r0
    = Some (s', r')
    /\ m_events r' =
         evts ++ [{| type := t; a := LONG_MAX;
                     b := b0 (ind (List.length evts)) |}]
    /\ buf s' = tail.
Proof.
  intros Hr Ht Hz Htail. eexists _, _. split.
  - apply (load_lines_then_last ind evts
             (show_int t ++ " " ++ show_int z ++ tail) r0
             {| buf := tail; eofbit := at_end tail; failbit := true |}
             (fun n => {| type := t; a := LONG_MAX; b := b0 (ind n) |}) Hr).
    + unfold good. cbn [eofbit failbit negb]. apply andb_false_r.
    + intros ws acc Hws. now apply load_body_overflow.
  - split; reflexivity.
Qed.

Lemma load_clamps_witness :
  exists s' r',
    load (fun _ => {| type0 := 7; a0 := 8; b0 := 9 |})
      (istream_of (event_lines [Event_ctor MV 10 20]
                   ++ show_int 6 ++ " " ++ show_int (2 ^ 63) ++ " 5"))
      Recorder_init
    = Some (s', r')
    /\ m_events r' =
         [Event_ctor MV 10 20] ++ [{| type := 6; a := LONG_MAX; b := 9 |}]
    /\ buf s' = " 5".
Proof.
  exact (load_clamps_parameter_too_large
           (fun _ => {| type0 := 7; a0 := 8; b0 := 9 |})
           [Event_ctor MV 10 20] 6 (2 ^ 63) " 5" Recorder_init
           eq_refl ltac:(unfold INT_MIN, INT_MAX; lia)
           eq_refl eq_refl).
Defined.

(** ** The Record toggle, the canvas and playback from a file *)

Lemma read_line_no_line_feed (line rest : string) :
  no_line_feed line = true ->
  read_line (line ++ String endl_char rest) = (line, Some rest).
Proof.
  induction line as [|c line IH]; simpl; [reflexivity|].
  intros H. apply andb_prop in H. destruct H as [Hc Hline].
  apply negb_true_iff in Hc. rewrite Hc, (IH Hline). reflexivity.
Qed.

Lemma getline_first_line (line rest old : string) :
  no_line_feed line = true ->
  getline (istream_of (line ++ String endl_char rest)) old
  = (istream_of rest, line).
Proof.
  intros H. unfold getline, istream_of, good.
  cbn [buf eofbit failbit negb andb].
  now rewrite (read_line_no_line_feed line rest H).
Qed.

Lemma load_event_lines (ind : Indeterminate) (evts : list Event)
  (r0 : RecorderMouseInput) :
  forallb Event_in_range evts = true ->
  load ind (istream_of (event_lines evts)) r0
  = Some ({| buf := EmptyString; eofbit := true; failbit := true |},
          set_events
            (evts ++ [indeterminate_event ind (List.length evts)]) r0).
Proof.
  intros Hr. rewrite <- (string_app_nil_r (event_lines evts)).
  apply (load_lines_then_last ind evts EmptyString r0
           {| buf := EmptyString; eofbit := true; failbit := true |}
           (indeterminate_event ind) Hr eq_refl).
  intros ws acc Hws. rewrite string_app_nil_r.
  now apply load_body_at_end.
Qed.

Lemma calls_in_range (cs : list Call) :
  forallb Call_in_range cs = true ->
  forallb Event_in_range (map event_of_call cs) = true.
Proof.
  induction cs as [|c cs IH]; simpl; [reflexivity|].
  intros H. apply andb_prop in H. destruct H as [Hc Hcs].
  unfold Call_in_range in Hc. now rewrite Hc, (IH Hcs).
Qed.

Section ApplicationProperties.

Context {Canvas Model SLAPrint : Type}.
Context (has_camera : Canvas -> bool)
        (reset_camera on_scene_updated : Canvas -> Canvas)
        (read_from_file : string -> failure + Model)
        (new_print : SLAPrint)
        (print_apply : Model -> SLAPrint -> SLAPrint * option failure)
        (print_set_task : SLAPrint -> SLAPrint)
        (print_process :
           SLAPrint -> list SlicingStatus * SLAPrint * option failure)
        (describe : failure -> string)
        (open_in : string -> option string).

(** X7. With a project loaded: switching the Record toggle on starts an
    empty log; the canvas events that follow are
    logged in order; switching it off with a file chosen and opened writes
    the project file name on a line of its own followed by one line per
    logged event, and leaves the recorder idle with the log in place. *)
Theorem record_toggle_cycle_writes_log
  (fr : MyFrame Canvas SLAPrint) (job : SLAJob SLAPrint)
  (evts : list wxMouseEvent) (dlg : option string) (stream_good : bool)
  (path : string) :
  m_ui_job fr = Some job ->
  let started :=
    fst (record_btn_handler has_camera reset_camera on_scene_updated
           true dlg stream_good fr) in
  let used := on_canvas_events evts started in
  let stopped :=
    record_btn_handler has_camera reset_camera on_scene_updated
      false (Some path) true used in
  m_recording (m_mouse started) = true
  /\ m_events (m_mouse started) = []
  /\ snd stopped =
       Some (path,
             (m_fname job ++ String endl_char EmptyString
              ++ event_lines (map event_of_call (canvas_calls evts)))%string)
  /\ m_recording (m_mouse (fst stopped)) = false
  /\ m_events (m_mouse (fst stopped)) =
       map event_of_call (canvas_calls evts).
Proof.
  intros Hjob. cbv zeta.
  set (canvas1 :=
         on_scene_updated
           (if has_camera (m_canvas fr) then reset_camera (m_canvas fr)
            else m_canvas fr)).
  assert (Hstart :
    record_btn_handler has_camera reset_camera on_scene_updated
      true dlg stream_good fr
    = (set_mouse (record true (m_mouse fr)) (set_canvas canvas1 fr), None)).
  { unfold record_btn_handler, canvas1. rewrite Hjob.
    destruct (has_camera (m_canvas fr)); reflexivity. }
  rewrite Hstart. cbn [fst].
  split; [reflexivity|]. split; [reflexivity|].
  set (started := set_mouse _ _).
  assert (Hlog : m_events (m_mouse (on_canvas_events evts started)) =
                 map event_of_call (canvas_calls evts)).
  { unfold on_canvas_events. cbn [m_mouse set_mouse].
    rewrite canvas_events_live.
    now destruct (live_effect (canvas_calls evts) (m_mouse started))
      as (-> & _). }
  unfold record_btn_handler.
  change (m_ui_job (on_canvas_events evts started)) with (m_ui_job fr).
  rewrite Hjob. cbn [fst snd m_mouse set_mouse].
  unfold save. rewrite save_events_append.
  cbn [m_events record set_recording set_events m_recording].
  rewrite Hlog. unfold put_str. cbn [append].
  rewrite string_app_assoc. repeat split.
Qed.

(** X8. Switching the Record toggle off without a file (the dialog is
    cancelled, or the file cannot be opened) writes nothing and leaves the
    log in the recorder; the next switching on empties it, so a recording
    that was not saved at once is lost. *)
Theorem unsaved_recording_is_lost
  (fr : MyFrame Canvas SLAPrint) (job : SLAJob SLAPrint)
  (dlg dlg' : option string) (stream_good stream_good' : bool) :
  m_ui_job fr = Some job ->
  dlg = None \/ stream_good = false ->
  let stopped :=
    record_btn_handler has_camera reset_camera on_scene_updated
      false dlg stream_good fr in
  let again :=
    record_btn_handler has_camera reset_camera on_scene_updated
      true dlg' stream_good' (fst stopped) in
  snd stopped = None
  /\ m_events (m_mouse (fst stopped)) = m_events (m_mouse fr)
  /\ m_recording (m_mouse (fst stopped)) = false
  /\ snd again = None
  /\ m_events (m_mouse (fst again)) = [].
Proof.
  intros Hjob Hno. cbv zeta.
  assert (Hstop :
    record_btn_handler has_camera reset_camera on_scene_updated
      false dlg stream_good fr
    = (set_mouse (record false (m_mouse fr)) fr, None)).
  { unfold record_btn_handler. rewrite Hjob.
    destruct Hno as [-> | ->]; [reflexivity|]. now destruct dlg. }
  rewrite Hstop. cbn [fst snd]. unfold record_btn_handler.
  cbn [m_ui_job set_mouse]. rewrite Hjob.
  destruct (has_camera _); repeat split.
Qed.

Lemma load_model_frame (fname : string) (fr : MyFrame Canvas SLAPrint) :
  let res := load_model read_from_file new_print print_apply print_set_task
               print_process describe fname fr in
  m_mouse (fst res) = m_mouse fr
  /\ m_canvas (fst res) = m_canvas fr
  /\ m_ui_job (fst res) = Some {| m_fname := fname; m_print := None |}.
Proof.
  cbv zeta. unfold load_model, Job_run.
  destruct (process read_from_file new_print print_apply print_set_task
              print_process {| m_fname := fname; m_print := None |})
    as [[job' statuses] escaped].
  repeat split.
Qed.

(** X9. Started as [prog play path] on a file that holds a project name
    (without line feed) on its first line and then the lines of the events
    of the calls [cs]: the job slot is filled with a job for that project,
    the log becomes the events of [cs] followed by one event made of the
    uninitialised locals of [load], the dispatcher is driven with [cs]
    (scrolls made vertical) and then with whatever that last event is
    replayed as, and the frame is closed. *)
Theorem playback_of_recorded_file
  (ind : Indeterminate) (prog path fname : string) (cs : list Call)
  (fr : MyFrame Canvas SLAPrint) :
  open_in path =
    Some (fname ++ String endl_char EmptyString
          ++ event_lines (map event_of_call cs))%string ->
  no_line_feed fname = true ->
  forallb Call_in_range cs = true ->
  exists st,
    OnInit read_from_file new_print print_apply print_set_task print_process
      describe open_in ind [prog; "play"; path] fr = Some st
    /\ started_shown st = false
    /\ m_ui_job (started_frame st) =
         Some {| m_fname := fname; m_print := None |}
    /\ m_events (m_mouse (started_frame st)) =
         map event_of_call cs
         ++ [indeterminate_event ind (List.length cs)]
    /\ dispatched (base (m_mouse (started_frame st))) =
         dispatched (base (m_mouse fr)) ++ map vertical cs
         ++ replay_calls [indeterminate_event ind (List.length cs)].
Proof.
  intros Hopen Hname Hcs.
  unfold OnInit. cbv zeta.
  replace (2 <? Z.of_nat (List.length [prog; "play"; path])) with true
    by reflexivity.
  cbn [nth]. change ("play" =? "play")%string with true. cbv iota.
  unfold play_back_mouse. rewrite Hopen.
  change (good (istream_of _)) with true. cbv iota.
  cbn [append]. rewrite (getline_first_line fname _ EmptyString Hname).
  destruct (load_model_frame fname fr) as (Hmouse & _ & Hjob).
  destruct (load_model read_from_file new_print print_apply print_set_task
              print_process describe fname fr) as [fr1 shown].
  cbn [fst] in Hmouse, Hjob.
  rewrite (load_event_lines ind _ (m_mouse fr1) (calls_in_range cs Hcs)).
  eexists. split; [reflexivity|]. cbn [started_shown started_frame].
  split; [reflexivity|]. split; [exact Hjob|].
  cbn [m_mouse set_mouse]. rewrite play_events, play_dispatched.
  cbn [m_events set_events base]. rewrite length_map, Hmouse.
  split; [reflexivity|].
  now rewrite replay_calls_app, replay_of_recorded.
Qed.

(** X10. The application replays nothing unless it is given at least two
    arguments, the first of them [play], and the file named by the second
    can be opened: otherwise the frame is what the constructor built (it
    stays shown, except that a play command on a file that cannot be
    opened still closes it), no job is started and the recorder is not
    touched. *)
Theorem no_playback_without_play_command_and_file
  (ind : Indeterminate) (argv : list string) (fr : MyFrame Canvas SLAPrint) :
  let started :=
    OnInit read_from_file new_print print_apply print_set_task print_process
      describe open_in ind argv fr in
  ((List.length argv <= 2)%nat ->
     started = Some {| started_frame := fr; started_shown := true;
                       started_job := [] |})
  /\ (nth 1 argv EmptyString <> "play" ->
        started = Some {| started_frame := fr; started_shown := true;
                          started_job := [] |})
  /\ ((2 < List.length argv)%nat ->
      nth 1 argv EmptyString = "play" ->
      open_in (nth 2 argv EmptyString) = None ->
        started = Some {| started_frame := fr; started_shown := false;
                          started_job := [] |}).
Proof.
  cbv zeta. unfold OnInit. split; [|split].
  - intros Hlen. destruct (Z.ltb_spec 2 (Z.of_nat (List.length argv)));
      [lia | reflexivity].
  - intros Hcmd. destruct (2 <? Z.of_nat (List.length argv)).
    + apply String.eqb_neq in Hcmd. now rewrite Hcmd.
    + reflexivity.
  - intros Hlen Hcmd Hopen.
    destruct (Z.ltb_spec 2 (Z.of_nat (List.length argv))); [|lia].
    rewrite Hcmd. change ("play" =? "play")%string with true. cbv iota.
    unfold play_back_mouse. now rewrite Hopen.
Qed.

End ApplicationProperties.

Lemma record_toggle_cycle_witness :
  let fr : MyFrame unit unit :=
    {| m_scene_print := None; m_canvas := tt; m_stbar := "";
       m_mouse := Recorder_init;
       m_ui_job := Some {| m_fname := "a.3mf"; m_print := None |} |} in
  let evts := [wxEVT_MOTION 10 20; wxEVT_LEFT_DOWN; wxEVT_unbound;
               wxEVT_MOUSEWHEEL 120 120 wxMOUSE_WHEEL_HORIZONTAL] in
  snd (record_btn_handler (fun _ => true) (fun c => c) (fun c => c)
         false (Some "out.events") true
         (on_canvas_events evts
            (fst (record_btn_handler (fun _ => true) (fun c => c) (fun c => c)
                    true None false fr))))
  = Some ("out.events",
          ("a.3mf" ++ String endl_char EmptyString
           ++ event_lines (map event_of_call (canvas_calls evts)))%string).
Proof.
  exact (proj1 (proj2 (proj2 (record_toggle_cycle_writes_log
    (Canvas := unit) (SLAPrint := unit)
    (fun _ => true) (fun c => c) (fun c => c)
    {| m_scene_print := None; m_canvas := tt; m_stbar := "";
       m_mouse := Recorder_init;
       m_ui_job := Some {| m_fname := "a.3mf"; m_print := None |} |}
    {| m_fname := "a.3mf"; m_print := None |}
    [wxEVT_MOTION 10 20; wxEVT_LEFT_DOWN; wxEVT_unbound;
     wxEVT_MOUSEWHEEL 120 120 wxMOUSE_WHEEL_HORIZONTAL]
    None false "out.events" eq_refl)))).
Defined.

Lemma unsaved_recording_witness :
  let fr : MyFrame unit unit :=
    {| m_scene_print := None; m_canvas := tt; m_stbar := "";
       m_mouse := live [call_move_to 1 2] (record true Recorder_init);
       m_ui_job := Some {| m_fname := "a.3mf"; m_print := None |} |} in
  m_events (m_mouse (fst
    (record_btn_handler (fun _ => true) (fun c => c) (fun c => c)
       true None false
       (fst (record_btn_handler (fun _ => true) (fun c => c) (fun c => c)
               false None true fr))))) = [].
Proof.
  exact (proj2 (proj2 (proj2 (proj2 (unsaved_recording_is_lost
    (Canvas := unit) (SLAPrint := unit)
    (fun _ => true) (fun c => c) (fun c => c)
    {| m_scene_print := None; m_canvas := tt; m_stbar := "";
       m_mouse := live [call_move_to 1 2] (record true Recorder_init);
       m_ui_job := Some {| m_fname := "a.3mf"; m_print := None |} |}
    {| m_fname := "a.3mf"; m_print := None |}
    None None true false eq_refl (or_introl eq_refl)))))).
Defined.

Lemma playback_of_recorded_file_witness :
  exists st,
    OnInit (Canvas := unit) (Model := unit) (SLAPrint := unit)
      (fun _ => inr tt) tt (fun _ p => (p, None)) (fun p => p)
      (fun p => ([], p, None)) (fun _ => "failed")
      (fun name =>
         if (name =? "out.events")%string
         then Some ("a.3mf" ++ String endl_char EmptyString
                    ++ event_lines (map event_of_call
                         [call_move_to 10 20; call_scroll 120 120 waHorizontal]))%string
         else None)
      (fun _ => {| type0 := 7; a0 := 8; b0 := 9 |})
      ["prog"; "play"; "out.events"]
      {| m_scene_print := None; m_canvas := tt; m_stbar := "";
         m_mouse := Recorder_init; m_ui_job := None |}
    = Some st
    /\ started_shown st = false
    /\ m_ui_job (started_frame st) =
         Some {| m_fname := "a.3mf"; m_print := None |}
    /\ m_events (m_mouse (started_frame st)) =
         map event_of_call
           [call_move_to 10 20; call_scroll 120 120 waHorizontal]
         ++ [indeterminate_event
               (fun _ => {| type0 := 7; a0 := 8; b0 := 9 |}) 2]
    /\ dispatched (base (m_mouse (started_frame st))) =
         dispatched (base Recorder_init)
         ++ map vertical
              [call_move_to 10 20; call_scroll 120 120 waHorizontal]
         ++ replay_calls
              [indeterminate_event
                 (fun _ => {| type0 := 7; a0 := 8; b0 := 9 |}) 2].
Proof.
  exact (playback_of_recorded_file
    (Canvas := unit) (Model := unit) (SLAPrint := unit)
    (fun _ => inr tt) tt (fun _ p => (p, None)) (fun p => p)
    (fun p => ([], p, None)) (fun _ => "failed")
    (fun name =>
       if (name =? "out.events")%string
       then Some ("a.3mf" ++ String endl_char EmptyString
                  ++ event_lines (map event_of_call
                       [call_move_to 10 20; call_scroll 120 120 waHorizontal]))%string
       else None)
    (fun _ => {| type0 := 7; a0 := 8; b0 := 9 |})
    "prog" "out.events" "a.3mf"
    [call_move_to 10 20; call_scroll 120 120 waHorizontal]
    {| m_scene_print := None; m_canvas := tt; m_stbar := "";
       m_mouse := Recorder_init; m_ui_job := None |}
    eq_refl eq_refl eq_refl).
Defined.

(** ** What a run of the load job leaves *)

Section LoadJobOutcomes.

Context {Canvas Model SLAPrint : Type}.
Context (read_from_file : string -> failure + Model)
        (new_print : SLAPrint)
        (print_apply : Model -> SLAPrint -> SLAPrint * option failure)
        (print_set_task : SLAPrint -> SLAPrint)
        (print_process :
           SLAPrint -> list SlicingStatus * SLAPrint * option failure).

(** X11. When the model cannot be read, [process] reports nothing and
    leaves the job without a print; [finalize] on that job nevertheless
    hands the (empty) print to the scene, replacing whatever print the
    scene held, and sets the status text to "Model ... loaded."; canvas,
    recorder and job slot are not touched. *)
Theorem finalize_after_failed_read
  (job : SLAJob SLAPrint) (fr : MyFrame Canvas SLAPrint) (f : failure) :
  read_from_file (m_fname job) = inl f ->
  m_print job = None ->
  let res := process read_from_file new_print print_apply print_set_task
               print_process job in
  let fr' := finalize (fst (fst res)) fr in
  snd (fst res) = []
  /\ snd res = Some f
  /\ m_scene_print fr' = None
  /\ m_stbar fr' = ("Model " ++ m_fname job ++ " loaded.")%string
  /\ m_canvas fr' = m_canvas fr
  /\ m_mouse fr' = m_mouse fr
  /\ m_ui_job fr' = m_ui_job fr.
Proof.
  intros Hread Hprint. cbv zeta. unfold process. rewrite Hread.
  cbn [fst snd]. unfold finalize. cbn. rewrite Hprint. repeat split.
Qed.

(** X12. A failure leaves [process] exactly when it is raised by reading
    the model, by applying the configuration, or by slicing without being
    derived from [std::exception]; [process] then has reported nothing but
    what the slicer reported.  A [std::exception] raised by slicing never
    leaves [process]: it adds one report of percent 0, after the reports of
    the slicer. *)
Theorem process_failure_escapes_iff (job : SLAJob SLAPrint) (f : failure) :
  let res := process read_from_file new_print print_apply print_set_task
               print_process job in
  let sliced model :=
    print_process (print_set_task (fst (print_apply model new_print))) in
  (snd res = Some f <->
     read_from_file (m_fname job) = inl f
     \/ (exists model,
           read_from_file (m_fname job) = inr model
           /\ snd (print_apply model new_print) = Some f)
     \/ (exists model,
           read_from_file (m_fname job) = inr model
           /\ snd (print_apply model new_print) = None
           /\ snd (sliced model) = Some f
           /\ f = other_exception))
  /\ (forall model what,
        read_from_file (m_fname job) = inr model ->
        snd (print_apply model new_print) = None ->
        snd (sliced model) = Some (std_exception what) ->
        snd res = None
        /\ snd (fst res) =
             fst (fst (sliced model))
             ++ [{| percent := 0;
                    text := ("Exception during processing: " ++ what)%string |}])
  /\ (snd res = Some f ->
      snd (fst res) =
        match read_from_file (m_fname job) with
        | inl _ => []
        | inr model =>
            match snd (print_apply model new_print) with
            | Some _ => []
            | None => fst (fst (sliced model))
            end
        end).
Proof.
  cbv zeta. unfold process.
  destruct (read_from_file (m_fname job)) as [f0|model] eqn:Hread;
    [|destruct (print_apply model new_print) as [pr [f0|]] eqn:Happ;
      [|destruct (print_process (print_set_task pr))
          as [[sts pr'] [[w|]|]] eqn:Hproc]];
    cbn [fst snd]; (split; [split|split]); intros;
    repeat (repeat match goal with
                   | H : _ \/ _ |- _ => destruct H
                   | H : exists _, _ |- _ => destruct H
                   | H : _ /\ _ |- _ => destruct H
                   | H : inr _ = inr _ |- _ => injection H as H; subst
                   | H : inl _ = inr _ |- _ => discriminate H
                   | H : inl _ = inl _ |- _ => injection H as H; subst
                   | H : Some _ = Some _ |- _ => injection H as H; subst
                   end;
            repeat match goal with
                   | Ha : print_apply _ _ = _ |- _ =>
                       progress (rewrite Ha in * )
                   | Hp : print_process _ = _ |- _ =>
                       progress (rewrite Hp in * )
                   end;
            cbn [fst snd] in * );
    try discriminate; try congruence; auto.
  - right. left. exists model. rewrite Happ. auto.
  - right. right. exists model. rewrite Happ. cbn [fst snd].
    rewrite Hproc. auto.
Qed.

End LoadJobOutcomes.

Lemma finalize_after_failed_read_witness :
  let fr : MyFrame unit nat :=
    {| m_scene_print := Some 5%nat; m_canvas := tt; m_stbar := "";
       m_mouse := Recorder_init; m_ui_job := None |} in
  m_scene_print
    (finalize
       (fst (fst (process (Model := unit) (SLAPrint := nat)
                    (fun _ => inl (std_exception "no such file"))
                    O (fun _ p => (p, None)) (fun p => p)
                    (fun p => ([], p, None))
                    {| m_fname := "missing.3mf"; m_print := None |})))
       fr) = None.
Proof.
  exact (proj1 (proj2 (proj2 (finalize_after_failed_read
    (Canvas := unit) (Model := unit) (SLAPrint := nat)
    (fun _ => inl (std_exception "no such file"))
    O (fun _ p => (p, None)) (fun p => p) (fun p => ([], p, None))
    {| m_fname := "missing.3mf"; m_print := None |}
    {| m_scene_print := Some 5%nat; m_canvas := tt; m_stbar := "";
       m_mouse := Recorder_init; m_ui_job := None |}
    (std_exception "no such file") eq_refl eq_refl)))).
Defined.

(** ** Playback from a file without events *)

Lemma read_line_without_line_feed (line : string) :
  no_line_feed line = true -> read_line line = (line, None).
Proof.
  induction line as [|c line IH]; simpl; [reflexivity|].
  intros H. apply andb_prop in H. destruct H as [Hc Hline].
  apply negb_true_iff in Hc. now rewrite Hc, (IH Hline).
Qed.

Section PlaybackWithoutEvents.

Context {Canvas Model SLAPrint : Type}.
Context (read_from_file : string -> failure + Model)
        (new_print : SLAPrint)
        (print_apply : Model -> SLAPrint -> SLAPrint * option failure)
        (print_set_task : SLAPrint -> SLAPrint)
        (print_process :
           SLAPrint -> list SlicingStatus * SLAPrint * option failure)
        (describe : failure -> string)
        (open_in : string -> option string).

(** X13. Played back from a file that holds no line feed at all (an empty
    file, or a project name and nothing else), the frame still gets a load
    job for the text of the file as project name, even for the empty name:
    the outcome of [getline] is not looked at.  The stream is at its end
    after that line, so the loop of [load] is not entered: the log is
    emptied, nothing is replayed. *)
Theorem playback_of_file_without_line_feed
  (ind : Indeterminate) (path content : string)
  (fr : MyFrame Canvas SLAPrint) :
  open_in path = Some content ->
  no_line_feed content = true ->
  exists fr' shown,
    play_back_mouse read_from_file new_print print_apply print_set_task
      print_process describe open_in ind path fr = Some (fr', shown)
    /\ m_ui_job fr' = Some {| m_fname := content; m_print := None |}
    /\ m_events (m_mouse fr') = []
    /\ dispatched (base (m_mouse fr')) = dispatched (base (m_mouse fr))
    /\ m_recording (m_mouse fr') = m_recording (m_mouse fr)
    /\ m_playing (m_mouse fr') = false.
Proof.
  intros Hopen Hline. unfold play_back_mouse. rewrite Hopen.
  change (good (istream_of content)) with true. cbv iota.
  unfold getline. change (good (istream_of content)) with true. cbv iota.
  cbn [istream_of buf failbit orb].
  rewrite (read_line_without_line_feed content Hline).
  pose proof (load_model_frame read_from_file new_print print_apply
                print_set_task print_process describe content fr) as Hfr.
  cbv zeta in Hfr. destruct Hfr as (Hmouse & _ & Hjob).
  destruct (load_model read_from_file new_print print_apply print_set_task
              print_process describe content fr) as [fr1 shown].
  cbn [fst] in Hmouse, Hjob.
  unfold load, load_fuel. cbn [buf String.length load_loop].
  change (good {| buf := ""; eofbit := true; failbit := at_end content |})
    with false. cbv iota.
  eexists _, _. split; [reflexivity|].
  cbn [m_ui_job m_mouse set_mouse]. split; [exact Hjob|].
  rewrite play_events, play_dispatched, play_recording.
  cbn [m_events set_events base m_recording replay_calls flat_map].
  rewrite app_nil_r, Hmouse. repeat split.
Qed.

End PlaybackWithoutEvents.

Lemma playback_of_file_without_line_feed_witness :
  exists fr' shown,
    play_back_mouse (Canvas := unit) (Model := unit) (SLAPrint := unit)
      (fun _ => inl other_exception) tt (fun _ p => (p, None)) (fun p => p)
      (fun p => ([], p, None)) (fun _ => "failed")
      (fun _ => Some EmptyString)
      (fun _ => {| type0 := 7; a0 := 8; b0 := 9 |})
      "empty.events"
      {| m_scene_print := None; m_canvas := tt; m_stbar := "";
         m_mouse := live [call_move_to 1 2] (record true Recorder_init);
         m_ui_job := None |}
    = Some (fr', shown)
    /\ m_ui_job fr' = Some {| m_fname := EmptyString; m_print := None |}
    /\ m_events (m_mouse fr') = []
    /\ dispatched (base (m_mouse fr')) =
         dispatched (base (live [call_move_to 1 2] (record true Recorder_init)))
    /\ m_recording (m_mouse fr') =
         m_recording (live [call_move_to 1 2] (record true Recorder_init))
    /\ m_playing (m_mouse fr') = false.
Proof.
  exact (playback_of_file_without_line_feed
    (Canvas := unit) (Model := unit) (SLAPrint := unit)
    (fun _ => inl other_exception) tt (fun _ p => (p, None)) (fun p => p)
    (fun p => ([], p, None)) (fun _ => "failed")
    (fun _ => Some EmptyString)
    (fun _ => {| type0 := 7; a0 := 8; b0 := 9 |})
    "empty.events" EmptyString
    {| m_scene_print := None; m_canvas := tt; m_stbar := "";
       m_mouse := live [call_move_to 1 2] (record true Recorder_init);
       m_ui_job := None |}
    eq_refl eq_refl).
Defined.
